(** * Shallow embedding of the WhatsApp connection and scheduling edge functions

    Modules:
    - [Dispatch]    : the scheduler function (scheduled_messages -> gateway sends).
    - [StatusMap]   : remote-to-internal status vocabulary of the three status paths.
    - [Connect]     : [handleConnect] of whapi-simple (channel creation, QR retrieval).
    - [CheckStatus] : the whapi-check-status function.
    - [Disconnect]  : [handleDisconnect] of whapi-simple.
    - [StatusHandler], [SendMessage], [ScheduleMessage], [SyncGroups],
      [GetMessages] : the other action handlers of whapi-simple.
    - [Webhook]     : the whapi-webhook-simple function.
    - [ProfileWrites] : how the profiles row absorbs status UPDATEs.
    - [Router]      : the request entry of whapi-simple (trial gating, action switch). *)

From Stdlib Require Import String List ZArith Bool Lia.
Import ListNotations.
Open Scope string_scope.
Open Scope list_scope.

(** Outcome of one [fetch] as the code observes it: the promise rejects
    ([FThrow]), or resolves with [res.ok = false] and an HTTP status, or
    with [res.ok = true] and the decoded body. *)
Inductive Fetch (A : Type) : Type :=
| FThrow : Fetch A
| FNotOk : nat -> Fetch A
| FOk : A -> Fetch A.
Arguments FThrow {A}.
Arguments FNotOk {A} _.
Arguments FOk {A} _.

Module Dispatch.

(** Values of [scheduled_messages.status] used by the scheduler. *)
Inductive SStatus := Pending | Sending | Sent | Partial | Failed | Cancelled.

Definition sstatus_eqb (a b : SStatus) : bool :=
  match a, b with
  | Pending, Pending | Sending, Sending | Sent, Sent | Partial, Partial
  | Failed, Failed | Cancelled, Cancelled => true
  | _, _ => false
  end.

(** The columns of [profiles] joined by [profiles!inner(whapi_token, instance_status)]. *)
Record JoinedProfile := {
  jp_whapi_token : option string;
  jp_instance_status : string
}.

(** A row of [scheduled_messages] together with its joined profile. *)
Record ScheduledMessage := {
  sm_id : nat;
  sm_message : string;
  sm_group_ids : list string;
  sm_send_at : Z;
  sm_status : SStatus;
  sm_profile : JoinedProfile
}.

(** Per-recipient result of the gateway send, as the [try] block sees it:
    [SendThrows] covers a rejected [fetch] and a failing [sendRes.json()]
    (both land in the [catch]); [SendNotOk e] a non-ok response with body
    text [e]; [SendOk mid] an ok response whose JSON carries id [mid]. *)
Inductive SendOutcome := SendThrows | SendNotOk (err : string) | SendOk (mid : string).

(** The gateway, as seen by the scheduler: the outcome of sending message
    [id] to group [g]. *)
Definition Gateway := nat -> string -> SendOutcome.

Inductive HStatus := HSent | HFailed.

(** A row inserted into [message_history]. *)
Record HistoryRow := {
  hr_scheduled_message_id : nat;
  hr_group_id : string;
  hr_status : HStatus;
  hr_detail : string  (** [whapi_message_id] or [error_message] *)
}.

(** Observable effects of the scheduler, in program order. *)
Inductive Event :=
| WriteStatus (id : nat) (s : SStatus)   (** [update({status}).eq('id', id)] *)
| SendTo (id : nat) (g : string)         (** POST /messages/text *)
| InsertHistory (h : HistoryRow).        (** insert into message_history *)

(** The [pendingMessages] query:
    [.eq('status','pending').lte('send_at', now).limit(10)], no [.order]:
    rows come in the store's own order. *)
Definition is_due (now : Z) (m : ScheduledMessage) : bool :=
  sstatus_eqb (sm_status m) Pending && (sm_send_at m <=? now)%Z.

Definition select_due (now : Z) (store : list ScheduledMessage) : list ScheduledMessage :=
  firstn 10 (filter (is_due now) store).

(** [!profile.whapi_token || profile.instance_status !== 'connected'] negated. *)
Definition profile_ready (p : JoinedProfile) : bool :=
  match jp_whapi_token p with
  | Some t => negb (String.eqb t "") && String.eqb (jp_instance_status p) "connected"
  | None => false
  end.

(** [successCount > 0 ? (failCount > 0 ? 'partial' : 'sent') : 'failed'] *)
Definition final_status (successCount failCount : nat) : SStatus :=
  if Nat.ltb 0 successCount then (if Nat.ltb 0 failCount then Partial else Sent) else Failed.

(** The [for (const groupId of message.group_ids)] loop; returns the
    events it emits and the final counters. *)
Fixpoint send_loop (gw : Gateway) (id : nat) (groups : list string)
    (successCount failCount : nat) : list Event * nat * nat :=
  match groups with
  | [] => ([], successCount, failCount)
  | g :: rest =>
      let '(evs, sc, fc) :=
        match gw id g with
        | SendOk mid =>
            ([SendTo id g;
              InsertHistory {| hr_scheduled_message_id := id; hr_group_id := g;
                               hr_status := HSent; hr_detail := mid |}],
             S successCount, failCount)
        | SendNotOk err =>
            ([SendTo id g;
              InsertHistory {| hr_scheduled_message_id := id; hr_group_id := g;
                               hr_status := HFailed; hr_detail := err |}],
             successCount, S failCount)
        | SendThrows =>
            (* catch: failCount++ and console.error only *)
            ([SendTo id g], successCount, S failCount)
        end in
      let '(evs', sc', fc') := send_loop gw id rest sc fc in
      (evs ++ evs', sc', fc')
  end.

(** The body of [for (const message of pendingMessages)]: it works on the
    row as selected and never re-reads the store. *)
Definition process_message (gw : Gateway) (m : ScheduledMessage) : list Event :=
  WriteStatus (sm_id m) Sending ::
  (if negb (profile_ready (sm_profile m)) then [WriteStatus (sm_id m) Failed]
   else
     let '(evs, sc, fc) := send_loop gw (sm_id m) (sm_group_ids m) 0 0 in
     evs ++ [WriteStatus (sm_id m) (final_status sc fc)]).

(** Effect of the events on the [scheduled_messages] table:
    an UPDATE ... WHERE id = id, with no condition on [status]. *)
Definition apply_event (store : list ScheduledMessage) (e : Event) : list ScheduledMessage :=
  match e with
  | WriteStatus id s =>
      map (fun r => if Nat.eqb (sm_id r) id then
                      {| sm_id := sm_id r; sm_message := sm_message r;
                         sm_group_ids := sm_group_ids r; sm_send_at := sm_send_at r;
                         sm_status := s; sm_profile := sm_profile r |}
                    else r) store
  | _ => store
  end.

(** Number of rows an UPDATE ... WHERE id = id affects. *)
Definition rows_affected (store : list ScheduledMessage) (id : nat) : nat :=
  length (filter (fun r => Nat.eqb (sm_id r) id) store).

Record DB := { db_sched : list ScheduledMessage; db_log : list Event }.

Definition run_events (db : DB) (evs : list Event) : DB :=
  {| db_sched := fold_left apply_event evs (db_sched db); db_log := db_log db ++ evs |}.

(** Processing of a (previously selected) batch. *)
Definition process_all (gw : Gateway) (sel : list ScheduledMessage) (db : DB) : DB :=
  fold_left (fun d m => run_events d (process_message gw m)) sel db.

(** One run of the scheduler function. *)
Definition run_pass (gw : Gateway) (now : Z) (db : DB) : DB :=
  process_all gw (select_due now (db_sched db)) db.

(** Two scheduler invocations that both run their query before either
    processes its batch, then process one after the other. *)
Definition two_overlapping_passes (gw : Gateway) (now : Z) (db : DB) : DB :=
  let selA := select_due now (db_sched db) in
  let selB := select_due now (db_sched db) in
  process_all gw selB (process_all gw selA db).

Definition sends_for (id : nat) (log : list Event) : nat :=
  length (filter (fun e => match e with SendTo i _ => Nat.eqb i id | _ => false end) log).

Definition history_rows (log : list Event) : list HistoryRow :=
  flat_map (fun e => match e with InsertHistory h => [h] | _ => [] end) log.

Definition is_send (e : Event) : bool :=
  match e with SendTo _ _ => true | _ => false end.

Definition is_write (e : Event) : bool :=
  match e with WriteStatus _ _ => true | _ => false end.

Definition sends_in (evs : list Event) : list Event := filter is_send evs.

Definition succeeded (o : SendOutcome) : bool :=
  match o with SendOk _ => true | _ => false end.

(** A row [r] of the table before a run and the row [r'] at its place
    after it, when the run processed the batch [sel]: only the status may
    differ, and only for a row whose id is the id of a batch member. *)
Definition kept_row (sel : list ScheduledMessage) (r r' : ScheduledMessage) : Prop :=
  sm_id r' = sm_id r /\ sm_message r' = sm_message r /\ sm_group_ids r' = sm_group_ids r /\
  sm_send_at r' = sm_send_at r /\ sm_profile r' = sm_profile r /\
  (existsb (fun m => Nat.eqb (sm_id m) (sm_id r)) sel = false -> r' = r).

End Dispatch.

(** ** Effects shared by the edge functions *)

(** JS truthiness of an optional string column or field. *)
Definition truthy (o : option string) : bool :=
  match o with Some x => negb (String.eqb x "") | None => false end.

(** A row of [profiles], the connection record. ([updated_at] is written
    with every update; how concurrent updates combine is in [ProfileWrites].) *)
Record Profile := {
  p_instance_id : option string;
  p_whapi_token : option string;
  p_instance_status : string;
  p_payment_plan : string;
  p_trial_expires_at : option Z   (** parsed [trial_expires_at], ms since epoch *)
}.

Definition set_status (s : string) (p : Profile) : Profile :=
  {| p_instance_id := p_instance_id p; p_whapi_token := p_whapi_token p;
     p_instance_status := s; p_payment_plan := p_payment_plan p;
     p_trial_expires_at := p_trial_expires_at p |}.

(** [update({ instance_id: null, whapi_token: null, instance_status: 'disconnected' })] *)
Definition reset_connection (p : Profile) : Profile :=
  {| p_instance_id := None; p_whapi_token := None;
     p_instance_status := "disconnected"; p_payment_plan := p_payment_plan p;
     p_trial_expires_at := p_trial_expires_at p |}.

Module Effects.

(** What the function sees of the user's row, the gateway calls it made
    (in order) and the [setTimeout] delays it awaited (in order). A missing
    row is [None]: a [.update(...).eq('id', userId)] then changes nothing. *)
Record St := { st_profile : option Profile; st_calls : list string; st_sleeps : list nat }.

(** A thrown exception carries its message. *)
Inductive Exc (A : Type) := Ret (a : A) | Throw (msg : string).
Arguments Ret {A} _.
Arguments Throw {A} _.

Definition M (A : Type) := St -> Exc A * St.

Definition ret {A} (a : A) : M A := fun s => (Ret a, s).
Definition raise {A} (msg : string) : M A := fun s => (Throw msg, s).
Definition bind {A B} (m : M A) (f : A -> M B) : M B :=
  fun s => match m s with
           | (Ret a, s') => f a s'
           | (Throw e, s') => (Throw e, s')
           end.

Notation "'let*' x ':=' m 'in' k" := (bind m (fun x => k))
  (at level 200, x name, m at level 100, k at level 200).

(** [try { m } catch (e) { h(e) }] *)
Definition catch {A} (m : M A) (h : string -> M A) : M A :=
  fun s => match m s with
           | (Ret a, s') => (Ret a, s')
           | (Throw e, s') => h e s'
           end.

Definition get_profile : M (option Profile) := fun s => (Ret (st_profile s), s).

(** [supabase.from('profiles').update(...).eq('id', userId)] *)
Definition update_profile (f : Profile -> Profile) : M unit :=
  fun s => (Ret tt, {| st_profile := option_map f (st_profile s);
                       st_calls := st_calls s; st_sleeps := st_sleeps s |}).

(** [await new Promise(resolve => setTimeout(resolve, ms))] *)
Definition sleep (ms : nat) : M unit :=
  fun s => (Ret tt, {| st_profile := st_profile s; st_calls := st_calls s;
                       st_sleeps := st_sleeps s ++ [ms] |}).

(** Result of an awaited [fetch] that did not reject. *)
Inductive Reply (A : Type) := NotOk (code : nat) | Ok (body : A).
Arguments NotOk {A} _.
Arguments Ok {A} _.

(** [await fetch(endpoint, ...)] answered by the gateway with [r]:
    a rejected promise becomes an exception. *)
Definition fetch {A} (endpoint : string) (r : Fetch A) : M (Reply A) :=
  fun s =>
    let s' := {| st_profile := st_profile s; st_calls := st_calls s ++ [endpoint];
                 st_sleeps := st_sleeps s |} in
    match r with
    | FThrow => (Throw "fetch failed", s')
    | FNotOk c => (Ret (NotOk c), s')
    | FOk a => (Ret (Ok a), s')
    end.

(** What a computation adds to the call and delay logs. *)
Definition adds (s s' : St) (maxCalls : nat) (delays : list nat) : Prop :=
  exists calls, st_calls s' = st_calls s ++ calls /\ length calls <= maxCalls /\
                st_sleeps s' = st_sleeps s ++ delays.

End Effects.

(** ** Status vocabulary *)
Module StatusMap.

(** whapi-webhook-simple: [newStatus] for a [channel] event. *)
Definition webhook_new_status (status : string) : string :=
  if String.eqb status "authenticated" || String.eqb status "ready" then "connected"
  else if String.eqb status "qr" || String.eqb status "unauthorized" then "unauthorized"
  else "disconnected".

(** whapi-simple [handleStatus]: [connected] and [newStatus]. *)
Definition handle_status_connected (status : string) : bool :=
  String.eqb status "authenticated" || String.eqb status "ready".

Definition handle_status_new_status (status : string) : string :=
  if handle_status_connected status then "connected"
  else if String.eqb status "qr" || String.eqb status "unauthorized" then "unauthorized"
  else "disconnected".

(** whapi-check-status: [isConnected]. *)
Definition check_status_is_connected (status : string) : bool :=
  String.eqb status "active" || String.eqb status "connected".

End StatusMap.

(** ** whapi-simple [handleDisconnect] *)
Module Disconnect.
Import Effects.

Record DiscResp := { dr_success : bool; dr_message : string }.

Definition handleDisconnect (del : Fetch unit) : M DiscResp :=
  let* profile := get_profile in
  let* _ :=
    match profile with
    | Some p =>
        if truthy (p_instance_id p) then
          catch (let* _ := fetch "DELETE manager/channels/{instance_id}" del in ret tt)
                (fun _ => (* console.log('WHAPI deletion error') *) ret tt)
        else ret tt
    | None => ret tt
    end in
  let* _ := update_profile reset_connection in
  ret {| dr_success := true; dr_message := "WhatsApp disconnected" |}.

End Disconnect.

(** ** whapi-check-status *)
Module CheckStatus.
Import Effects.

(** An element of the partner instance list. *)
Record Instance := { inst_instanceId : option string; inst_id : option string }.

Definition opt_eqb (o : option string) (id : string) : bool :=
  match o with Some x => String.eqb x id | None => false end.

(** [inst.instanceId === profile.instance_id || inst.id === profile.instance_id] *)
Definition inst_matches (id : string) (i : Instance) : bool :=
  opt_eqb (inst_instanceId i) id || opt_eqb (inst_id i) id.

(** The JSON body of a response. *)
Record CheckResp := {
  cr_connected : bool;
  cr_requiresNewInstance : bool;
  cr_error : option string;
  cr_status : option string
}.

Definition resp_error (msg : string) : CheckResp :=
  {| cr_connected := false; cr_requiresNewInstance := false; cr_error := Some msg;
     cr_status := None |}.

Definition resp_gone (msg : string) : CheckResp :=
  {| cr_connected := false; cr_requiresNewInstance := true; cr_error := Some msg;
     cr_status := None |}.

(** The [try] body. [verify] answers GET partner/v1/instances and
    [status] answers GET partner/v1/instances/{id}/status. *)
Definition check_status_body (partnerToken : string)
    (verify : Fetch (list Instance)) (status : Fetch string) : M CheckResp :=
  if String.eqb partnerToken "" then ret (resp_error "WHAPI partner token not configured")
  else
  let* profile := get_profile in
  match profile with
  | None => ret (resp_error "No instance found")
  | Some p =>
    match p_instance_id p with
    | None => ret (resp_error "No instance found")
    | Some id =>
      if String.eqb id "" then ret (resp_error "No instance found") else
      let* v := fetch "GET partner/v1/instances" verify in
      let status_check :=
        let* r := fetch "GET partner/v1/instances/{id}/status" status in
        match r with
        | NotOk code =>
            if Nat.eqb code 404 then
              let* _ := update_profile reset_connection in
              ret (resp_gone "Instance not found. Please create a new instance.")
            else ret (resp_error "Status check failed")
        | Ok st =>
            let isConnected := StatusMap.check_status_is_connected st in
            let* _ :=
              if isConnected && negb (String.eqb (p_instance_status p) "connected")
              then update_profile (set_status "connected") else ret tt in
            ret {| cr_connected := isConnected; cr_requiresNewInstance := false;
                   cr_error := None; cr_status := Some st |}
        end in
      match v with
      | Ok instances =>
          if negb (existsb (inst_matches id) instances) then
            let* _ := update_profile reset_connection in
            ret (resp_gone "Instance no longer exists. Please create a new instance.")
          else status_check
      | NotOk _ => status_check
      end
    end
  end.

(** The handler with its outer [catch]. *)
Definition check_status (partnerToken : string)
    (verify : Fetch (list Instance)) (status : Fetch string) : M CheckResp :=
  catch (check_status_body partnerToken verify status) (fun msg => ret (resp_error msg)).

End CheckStatus.

(** ** whapi-simple [handleConnect] *)
Module Connect.
Import Effects.

(** The fields of a GET /qr JSON body the code looks at. *)
Record QrBody := {
  qb_qr : option string; qb_qrCode : option string; qb_image : option string;
  qb_base64 : option string }.

(** [a || b] on optional strings. *)
Definition js_or (a b : option string) : option string := if truthy a then a else b.

(** [qrData.qr || qrData.qrCode || qrData.image || qrData.base64], kept if truthy. *)
Definition qr_of (b : QrBody) : option string :=
  let q := js_or (qb_qr b) (js_or (qb_qrCode b) (js_or (qb_image b) (qb_base64 b))) in
  if truthy q then q else None.

(** [if (!qrCode.startsWith('data:image/')) qrCode = `data:image/png;base64,${qrCode}`] *)
Definition with_data_prefix (code : string) : string :=
  if String.prefix "data:image/" code then code else "data:image/png;base64," ++ code.

(** The gateway answers seen by one invocation. [cg_health n] and [cg_qr n]
    answer the calls of attempt [n] of the polling loop. *)
Record ConnectGw := {
  cg_health_existing : Fetch string;
  cg_qr_existing : Fetch QrBody;
  cg_delete : Fetch unit;
  cg_projects : Fetch (list string);     (** ids of [projects] *)
  cg_create : Fetch (string * string);   (** [channel.id], [channel.token] *)
  cg_settings : Fetch unit;
  cg_health : nat -> Fetch string;
  cg_qr : nat -> Fetch QrBody
}.

Inductive ConnectResp :=
| AlreadyConnected                 (** [already_connected: true] *)
| QrCode (qr_code : string)        (** [qr_code] *)
| InstanceCreated (instance_id : string). (** 'Instance created. Please try getting QR code in a moment.' *)

(** The QR request shared by both paths, once health says [qr]/[unauthorized]. *)
Definition fetch_qr (r : Fetch QrBody) : M (option ConnectResp) :=
  let* q := fetch "GET gate/qr" r in
  match q with
  | Ok body =>
      match qr_of body with
      | Some code =>
          let* _ := update_profile (set_status "unauthorized") in
          ret (Some (QrCode (with_data_prefix code)))
      | None => ret None
      end
  | NotOk _ => ret None
  end.

Definition needs_qr (status : string) : bool :=
  String.eqb status "qr" || String.eqb status "unauthorized".

(** [while (attempts < 8) { ... attempts++; await sleep(2000) }]:
    [n] iterations remain, the current attempt is [8 - n]. *)
Fixpoint qr_loop (gw : ConnectGw) (n : nat) : M (option ConnectResp) :=
  match n with
  | 0 => ret None
  | S n' =>
      let* h := fetch "GET gate/health" (cg_health gw (8 - n)) in
      let* r :=
        match h with
        | Ok status => if needs_qr status then fetch_qr (cg_qr gw (8 - n)) else ret None
        | NotOk _ => ret None
        end in
      match r with
      | Some resp => ret (Some resp)
      | None => let* _ := sleep 2000 in qr_loop gw n'
      end
  end.

(** Step 1: a stored token is checked first. *)
Definition check_existing (gw : ConnectGw) (profile : option Profile) : M (option ConnectResp) :=
  match profile with
  | Some p =>
      if truthy (p_whapi_token p) then
        let* h := fetch "GET gate/health" (cg_health_existing gw) in
        match h with
        | Ok status =>
            if String.eqb status "authenticated" || String.eqb status "ready" then
              let* _ := update_profile (set_status "connected") in
              ret (Some AlreadyConnected)
            else if needs_qr status then fetch_qr (cg_qr_existing gw)
            else ret None
        | NotOk _ => ret None
        end
      else ret None
  | None => ret None
  end.

(** The project id: [Deno.env.get('WHAPI_PROJECT_ID')], else the first project. *)
Definition resolve_project (gw : ConnectGw) (envProject : option string) : M (option string) :=
  if truthy envProject then ret envProject
  else
    let* r := fetch "GET manager/projects" (cg_projects gw) in
    match r with
    | Ok (first :: _) => ret (Some first)
    | _ => ret envProject
    end.

(** Clean up old instance if exists (best effort). *)
Definition cleanup_old (gw : ConnectGw) (profile : option Profile) : M unit :=
  match profile with
  | Some p =>
      if truthy (p_instance_id p) then
        catch (let* _ := fetch "DELETE manager/channels/{instance_id}" (cg_delete gw) in ret tt)
              (fun _ => ret tt)
      else ret tt
  | None => ret tt
  end.

(** From "Setup webhook" to the end of [handleConnect], for the channel
    [cid] just created with token [token]. *)
Definition finish_new_channel (gw : ConnectGw) (cid token : string) : M ConnectResp :=
  let* _ := catch (let* _ := fetch "PATCH gate/settings" (cg_settings gw) in ret tt)
                  (fun _ => ret tt) in
  let* _ := update_profile (fun p =>
              {| p_instance_id := Some cid; p_whapi_token := Some token;
                 p_instance_status := "initializing"; p_payment_plan := p_payment_plan p;
                 p_trial_expires_at := p_trial_expires_at p |}) in
  let* _ := sleep 3000 in
  let* r := qr_loop gw 8 in
  match r with
  | Some resp => ret resp
  | None => ret (InstanceCreated cid)
  end.

Definition handleConnect (gw : ConnectGw) (envProject : option string) : M ConnectResp :=
  let* profile := get_profile in
  let* existing := check_existing gw profile in
  match existing with
  | Some resp => ret resp
  | None =>
    let* _ := cleanup_old gw profile in
    let* projectId := resolve_project gw envProject in
    if negb (truthy projectId) then raise "No WHAPI project available" else
    let* c := fetch "PUT manager/channels" (cg_create gw) in
    match c with
    | NotOk _ => raise "Failed to create channel"
    | Ok (cid, token) => finish_new_channel gw cid token
    end
  end.

End Connect.

(** ** whapi-simple [handleStatus] *)
Module StatusHandler.
Import Effects.

Inductive StatusResp :=
| NoInstance                         (** [connected: false, status: 'no_instance'] *)
| StatusCheckFailed                  (** [connected: false, status: 'error'] *)
| StatusReport (connected : bool) (status : string) (trial_expired : bool).

(** [trialExpired && !isPaid]; a null [trial_expires_at] reads as false. *)
Definition trial_blocked (p : Profile) (now : Z) : bool :=
  let trialExpired := match p_trial_expires_at p with Some t => (t <? now)%Z | None => false end in
  let isPaid := String.eqb (p_payment_plan p) "monthly" || String.eqb (p_payment_plan p) "yearly" in
  trialExpired && negb isPaid.

Definition handleStatus (health : Fetch string) (now : Z) : M StatusResp :=
  let* profile := get_profile in
  match profile with
  | None => ret NoInstance
  | Some p =>
    if negb (truthy (p_whapi_token p)) then ret NoInstance else
    let* h := fetch "GET gate/health" health in
    match h with
    | NotOk _ => ret StatusCheckFailed
    | Ok status =>
        let connected := StatusMap.handle_status_connected status in
        let newStatus := StatusMap.handle_status_new_status status in
        let* _ := if negb (String.eqb newStatus (p_instance_status p))
                  then update_profile (set_status newStatus) else ret tt in
        ret (StatusReport connected status (trial_blocked p now))
    end
  end.

End StatusHandler.

(** ** whapi-webhook-simple, whole handler *)
Module Webhook.

(** The [profiles] table: user id and row. *)
Definition Table := list (string * Profile).

Record WebhookEvent := {
  we_event : string;
  we_data_id : option string;       (** [webhook.data?.id] *)
  we_data_status : option string    (** [webhook.data?.status] *)
}.

(** [newStatus]; an absent status matches none of the comparisons. *)
Definition event_new_status (st : option string) : string :=
  match st with
  | Some x => StatusMap.webhook_new_status x
  | None => "disconnected"
  end.

Definition has_instance (id : string) (row : string * Profile) : bool :=
  match p_instance_id (snd row) with Some x => String.eqb x id | None => false end.

(** The table after one delivery. A [users] event is only logged. *)
Definition handle_webhook (ev : WebhookEvent) (tbl : Table) : Table :=
  if String.eqb (we_event ev) "channel" && truthy (we_data_id ev) then
    match we_data_id ev with
    | Some id =>
        (* select('id').eq('instance_id', id), then update(...).eq('instance_id', id) *)
        if Nat.ltb 0 (length (filter (has_instance id) tbl)) then
          map (fun row => if has_instance id row
                          then (fst row, set_status (event_new_status (we_data_status ev)) (snd row))
                          else row) tbl
        else tbl
    | None => tbl
    end
  else tbl.

End Webhook.

(** ** whapi-simple [handleSendMessage] *)
Module SendMessage.
Import Dispatch.

Record SendResult := { res_groupId : string; res_success : bool; res_detail : string }.

Inductive SendResp :=
| SendBad (error : string)   (** status 400 *)
| SendDone (success : bool) (results : list SendResult) (sent total : nat).
    (** [success: successCount > 0], [results],
        [message: `Sent to ${successCount} of ${groupIds.length} groups`] *)

Inductive SendEvent := DirectSend (g : string) | DirectHistory (g : string) (st : HStatus).

Fixpoint send_all (gw : string -> SendOutcome) (groups : list string) (successCount : nat)
    : list SendResult * list SendEvent * nat :=
  match groups with
  | [] => ([], [], successCount)
  | g :: rest =>
      let '(r, evs, sc) :=
        match gw g with
        | SendOk mid => ({| res_groupId := g; res_success := true; res_detail := mid |},
                         [DirectSend g; DirectHistory g HSent], S successCount)
        | SendNotOk err => ({| res_groupId := g; res_success := false; res_detail := err |},
                            [DirectSend g; DirectHistory g HFailed], successCount)
        | SendThrows => ({| res_groupId := g; res_success := false; res_detail := "fetch failed" |},
                         [DirectSend g], successCount)
        end in
      let '(rs, evs', sc') := send_all gw rest sc in
      (r :: rs, evs ++ evs', sc')
  end.

(** [groupIds] absent is [[]], [message] absent is [""]. [profile] is the
    row read after validation. *)
Definition handleSendMessage (profile : option Profile) (gw : string -> SendOutcome)
    (groupIds : list string) (message : string) : SendResp * list SendEvent :=
  if Nat.eqb (length groupIds) 0 || String.eqb message "" then
    (SendBad "Group IDs and message are required", [])
  else
    match profile with
    | Some p =>
        if truthy (p_whapi_token p) && String.eqb (p_instance_status p) "connected" then
          let '(rs, evs, sc) := send_all gw groupIds 0 in
          (SendDone (Nat.ltb 0 sc) rs sc (length groupIds), evs)
        else (SendBad "WhatsApp not connected", [])
    | None => (SendBad "WhatsApp not connected", [])
    end.

Definition is_direct_send (e : SendEvent) : bool :=
  match e with DirectSend _ => true | _ => false end.

(** The history rows written for group [g]. *)
Definition history_of (gw : string -> SendOutcome) (g : string) : list SendEvent :=
  match gw g with
  | SendOk _ => [DirectHistory g HSent]
  | SendNotOk _ => [DirectHistory g HFailed]
  | SendThrows => []
  end.

End SendMessage.

(** ** whapi-simple [handleScheduleMessage] *)
Module ScheduleMessage.

(** [[...new Set(xs)]]: first occurrences, in order. *)
Fixpoint set_spread (seen : list string) (xs : list string) : list string :=
  match xs with
  | [] => []
  | x :: rest =>
      if existsb (String.eqb x) seen then set_spread seen rest
      else x :: set_spread (x :: seen) rest
  end.

Record ScheduleData := {
  sd_message : option string; sd_groupIds : option (list string);
  sd_tagIds : option (list string); sd_sendAt : option string }.

Inductive ScheduleOp := QueryTaggedGroups | InsertScheduled (group_ids : list string).

Inductive ScheduleResp := ScheduleBad (error : string) | Scheduled.

Definition nonempty_list (o : option (list string)) : bool :=
  match o with Some (_ :: _) => true | _ => false end.

(** [tagged] is the group ids the tag query returns ([None] for a null
    [data]); [insert_ok] whether the insert reported no error. *)
Definition handleScheduleMessage (d : ScheduleData) (tagged : option (list string))
    (insert_ok : bool) : ScheduleResp * list ScheduleOp :=
  if negb (truthy (sd_message d))
     || (negb (nonempty_list (sd_groupIds d)) && negb (nonempty_list (sd_tagIds d)))
     || negb (truthy (sd_sendAt d)) then
    (ScheduleBad "Message, recipients, and send time are required", [])
  else
    let base := match sd_groupIds d with Some g => g | None => [] end in
    let '(finalGroupIds, ops) :=
      if nonempty_list (sd_tagIds d) then
        match tagged with
        | Some tgs => (set_spread [] (base ++ tgs), [QueryTaggedGroups])
        | None => (base, [QueryTaggedGroups])
        end
      else (base, []) in
    (if insert_ok then Scheduled else ScheduleBad "Failed to schedule message",
     ops ++ [InsertScheduled finalGroupIds]).

(** The request passes the handler's validation. *)
Definition valid (d : ScheduleData) : Prop :=
  truthy (sd_message d) = true /\ truthy (sd_sendAt d) = true /\
  (nonempty_list (sd_groupIds d) = true \/ nonempty_list (sd_tagIds d) = true).

End ScheduleMessage.

(** ** whapi-simple [handleSyncGroups] *)
Module SyncGroups.

(** The fields of a gateway group the code reads. *)
Record GwGroup := {
  gg_id : option string; gg_name : option string; gg_subject : option string;
  gg_participants : option (list string); gg_size : option nat;
  gg_isAdmin : option bool; gg_is_admin : option bool }.

(** A row of [whatsapp_groups]. *)
Record GroupRow := {
  gr_user_id : string; gr_group_id : option string; gr_name : string;
  gr_participants_count : nat; gr_is_admin : bool }.

(** [a || b || false] and [a || b || 0] on optional values. *)
Definition bool_or (a b : option bool) : bool :=
  match a with Some true => true | _ => match b with Some true => true | _ => false end end.

Definition nat_or (a b : option nat) : nat :=
  match a with Some (S k) => S k | _ => match b with Some (S k) => S k | _ => 0 end end.

(** [groups.map(group => ({ ... }))] *)
Definition to_row (userId : string) (g : GwGroup) : GroupRow :=
  {| gr_user_id := userId; gr_group_id := gg_id g;
     gr_name := match Connect.js_or (gg_name g) (gg_subject g) with
                | Some n => if truthy (Some n) then n else "Unknown Group"
                | None => "Unknown Group"
                end;
     gr_participants_count := nat_or (option_map (@length string) (gg_participants g)) (gg_size g);
     gr_is_admin := bool_or (gg_isAdmin g) (gg_is_admin g) |}.

Definition same_key (a b : GroupRow) : bool :=
  String.eqb (gr_user_id a) (gr_user_id b) &&
  match gr_group_id a, gr_group_id b with
  | Some x, Some y => String.eqb x y
  | _, _ => false
  end.

(** UNIQUE(user_id, group_id) over a list of rows. *)
Fixpoint unique_keys (rows : list GroupRow) : bool :=
  match rows with
  | [] => true
  | r :: rest => negb (existsb (same_key r) rest) && unique_keys rest
  end.

(** The constraints of [whatsapp_groups] a multi-row INSERT must meet as a
    whole: [group_id NOT NULL] and UNIQUE(user_id, group_id). *)
Definition insert_ok (tbl batch : list GroupRow) : bool :=
  forallb (fun r => match gr_group_id r with Some _ => true | None => false end) batch
  && unique_keys (tbl ++ batch).

Inductive SyncResp :=
| SyncBad (error : string)        (** status 400 *)
| SyncOk (groups_count : nat)
| SyncThrow (msg : string).       (** thrown, answered 500 by the entry point *)

(** [profile] is the row read by the handler, [groupsRes] the answer of
    GET /groups ([Some gs] for [groupsData.groups], [None] when absent),
    [tbl] the [whatsapp_groups] table. *)
Definition handleSyncGroups (userId : string) (profile : option Profile)
    (groupsRes : Fetch (option (list GwGroup))) (tbl : list GroupRow)
    : SyncResp * list GroupRow :=
  match profile with
  | Some p =>
    if negb (truthy (p_whapi_token p) && String.eqb (p_instance_status p) "connected") then
      (SyncBad "WhatsApp not connected", tbl)
    else
    match groupsRes with
    | FThrow => (SyncThrow "fetch failed", tbl)
    | FNotOk _ => (SyncBad "Failed to fetch groups from WHAPI", tbl)
    | FOk gs =>
        let groups := match gs with Some l => l | None => [] end in
        (* .delete().eq('user_id', userId) *)
        let kept := filter (fun r => negb (String.eqb (gr_user_id r) userId)) tbl in
        match groups with
        | [] => (SyncOk 0, kept)
        | _ =>
            let batch := map (to_row userId) groups in
            if insert_ok kept batch then (SyncOk (length groups), kept ++ batch)
            else (SyncThrow "Failed to save groups", kept)
        end
    end
  | None => (SyncBad "WhatsApp not connected", tbl)
  end.

(** The rows of user [u]. *)
Definition mine (u : string) (r : GroupRow) : bool := String.eqb (gr_user_id r) u.

End SyncGroups.

(** ** whapi-simple [handleGetMessages] *)
Module GetMessages.

Inductive Kind := KScheduled | KHistory.

(** [{ type = 'scheduled', limit = 20, offset = 0 } = data || {}] *)
Record Query := { q_type : option string; q_limit : option nat; q_offset : option nat }.

(** [.range(offset, offset + limit - 1)] on the rows the ordered query
    returns. *)
Definition range {A} (offset limit : nat) (rows : list A) : list A :=
  firstn limit (skipn offset rows).

(** [scheduled] and [history] are the user's rows of [scheduled_messages]
    and [message_history] in the query's order (newest first). *)
Definition handleGetMessages {A} (q : Query) (scheduled history : list A) : Kind * list A :=
  let type := match q_type q with Some t => t | None => "scheduled" end in
  let limit := match q_limit q with Some l => l | None => 20 end in
  let offset := match q_offset q with Some o => o | None => 0 end in
  if String.eqb type "scheduled" then (KScheduled, range offset limit scheduled)
  else (KHistory, range offset limit history).

End GetMessages.

(** ** Concurrent status UPDATEs on one profiles row *)
Module ProfileWrites.
Import Effects.









End ProfileWrites.

(** ** Request entry of whapi-simple *)
Module Router.

Inductive Handler :=
  HStatus | HDisconnect | HSyncGroups | HSendMessage | HScheduleMessage | HGetMessages | HConnect.

(** [switch (action)], [default: // 'connect'] *)
Definition handler_of (action : string) : Handler :=
  if String.eqb action "status" then HStatus
  else if String.eqb action "disconnect" then HDisconnect
  else if String.eqb action "sync-groups" then HSyncGroups
  else if String.eqb action "send-message" then HSendMessage
  else if String.eqb action "schedule-message" then HScheduleMessage
  else if String.eqb action "get-messages" then HGetMessages
  else HConnect.

(** Store operations done before the action handler. *)
Inductive StoreOp := SelectProfile | InsertProfile.

Inductive Route := Reject (status : nat) (error : string) | Run (h : Handler).

(** From the profile lookup to the [switch], for a request with a userId;
    [profile] is the value the lookup returned ([null] for a new user, in
    which case a trial row is inserted but the local [profile] stays null). *)
Definition route (profile : option Profile) (action : string) (now : Z) : list StoreOp * Route :=
  let ops := SelectProfile :: match profile with None => [InsertProfile] | Some _ => [] end in
  if negb (String.eqb action "connect") && negb (String.eqb action "status")
     && negb (String.eqb action "disconnect") then
    let trialExpired :=
      match profile with
      | Some p => match p_trial_expires_at p with Some t => (t <? now)%Z | None => false end
      | None => false
      end in
    let isPaid :=
      match profile with
      | Some p => String.eqb (p_payment_plan p) "monthly" || String.eqb (p_payment_plan p) "yearly"
      | None => false
      end in
    if trialExpired && negb isPaid then (ops, Reject 403 "Trial expired")
    else (ops, Run (handler_of action))
  else (ops, Run (handler_of action)).

End Router.

(** Concrete inputs used to evaluate the scheduler. *)
Module DispatchSamples.
Import Dispatch.

Definition prof_connected : JoinedProfile :=
  {| jp_whapi_token := Some "tok"; jp_instance_status := "connected" |}.

Definition mk (id : nat) (groups : list string) (send_at : Z) : ScheduledMessage :=
  {| sm_id := id; sm_message := "hello"; sm_group_ids := groups; sm_send_at := send_at;
     sm_status := Pending; sm_profile := prof_connected |}.

Definition gw_all_ok : Gateway := fun _ _ => SendOk "wamid".

(** The send to "g2" is rejected by [fetch] (network error). *)
Definition gw_second_throws : Gateway :=
  fun _ g => if String.eqb g "g2" then SendThrows else SendOk "wamid".

(** The send to "g2" gets a non-ok HTTP response. *)
Definition gw_second_rejected : Gateway :=
  fun _ g => if String.eqb g "g2" then SendNotOk "upstream error" else SendOk "wamid".

Definition db_one : DB := {| db_sched := [mk 1 ["g1"] 0]; db_log := [] |}.

End DispatchSamples.

(** Concrete inputs used to evaluate the connection functions. *)
Module ConnSamples.
Import Effects Connect.

Definition fresh_profile : Profile :=
  {| p_instance_id := None; p_whapi_token := None; p_instance_status := "disconnected";
     p_payment_plan := "trial"; p_trial_expires_at := Some 1000%Z |}.

Definition stale_profile : Profile :=
  {| p_instance_id := Some "ch-old"; p_whapi_token := Some "tok-old";
     p_instance_status := "connected"; p_payment_plan := "trial";
     p_trial_expires_at := Some 1000%Z |}.

Definition st_of (p : Profile) : St := {| st_profile := Some p; st_calls := []; st_sleeps := [] |}.

Definition no_qr : QrBody :=
  {| qb_qr := None; qb_qrCode := None; qb_image := None; qb_base64 := None |}.

(** A gateway whose new channel never leaves a launching state. *)
Definition gw_never_ready : ConnectGw :=
  {| cg_health_existing := FNotOk 401; cg_qr_existing := FNotOk 401;
     cg_delete := FOk tt; cg_projects := FOk ["proj"]; cg_create := FOk ("ch1", "tok1");
     cg_settings := FOk tt; cg_health := fun _ => FOk "launching"; cg_qr := fun _ => FOk no_qr |}.

(** The same gateway refusing to create a channel. *)
Definition gw_create_refused : ConnectGw :=
  {| cg_health_existing := FNotOk 401; cg_qr_existing := FNotOk 401;
     cg_delete := FOk tt; cg_projects := FOk ["proj"]; cg_create := FNotOk 429;
     cg_settings := FOk tt; cg_health := fun _ => FOk "launching"; cg_qr := fun _ => FOk no_qr |}.

(** A gateway whose new channel serves a QR code on the third attempt. *)
Definition gw_qr_third : ConnectGw :=
  {| cg_health_existing := FNotOk 401; cg_qr_existing := FNotOk 401;
     cg_delete := FOk tt; cg_projects := FOk ["proj"]; cg_create := FOk ("ch1", "tok1");
     cg_settings := FThrow;
     cg_health := fun n => if Nat.eqb n 2 then FOk "qr" else FOk "launching";
     cg_qr := fun _ => FOk {| qb_qr := Some "iVBOR"; qb_qrCode := None; qb_image := None;
                              qb_base64 := None |} |}.

Definition expired_trial : Profile :=
  {| p_instance_id := None; p_whapi_token := None; p_instance_status := "disconnected";
     p_payment_plan := "trial"; p_trial_expires_at := Some 50%Z |}.

End ConnSamples.

(** Concrete inputs used to evaluate the other handlers. *)
Module HandlerSamples.
Import SyncGroups.

Definition connected_profile : Profile :=
  {| p_instance_id := Some "ch1"; p_whapi_token := Some "tok1";
     p_instance_status := "connected"; p_payment_plan := "trial";
     p_trial_expires_at := Some 1000%Z |}.

Definition group (id : string) : GwGroup :=
  {| gg_id := Some id; gg_name := None; gg_subject := Some "Team"; gg_participants := None;
     gg_size := Some 3; gg_isAdmin := None; gg_is_admin := Some true |}.

Definition row (u id : string) : GroupRow :=
  {| gr_user_id := u; gr_group_id := Some id; gr_name := "Old"; gr_participants_count := 0;
     gr_is_admin := false |}.

Definition groups_table : list GroupRow := [row "u1" "g0"; row "u2" "g1"].

End HandlerSamples.

(* ================================================================== *)
(** * Properties *)

Module DispatchFacts.
Import Dispatch DispatchSamples.

Lemma send_loop_shape : forall gw id gs sc fc,
  let '(evs, sc', fc') := send_loop gw id gs sc fc in
  sends_in evs = map (SendTo id) gs /\
  forallb (fun e => negb (is_write e)) evs = true /\
  sc' = sc + count_occ Bool.bool_dec (map succeeded (map (gw id) gs)) true /\
  fc' = fc + count_occ Bool.bool_dec (map succeeded (map (gw id) gs)) false.
Proof.
  intros gw id gs. induction gs as [| g rest IH]; intros sc fc; simpl.
  - repeat split; lia.
  - destruct (gw id g) as [| err | mid] eqn:Hg; simpl;
      [specialize (IH sc (S fc)) | specialize (IH sc (S fc)) | specialize (IH (S sc) fc)];
      destruct (send_loop gw id rest _ _) as [[evs' sc'] fc'];
      destruct IH as (Hs & Hw & Hsc & Hfc);
      unfold sends_in in *; simpl; rewrite ?Hs, ?Hw; simpl;
      repeat split; try reflexivity; lia.
Qed.

Lemma sends_in_app : forall l1 l2, sends_in (l1 ++ l2) = sends_in l1 ++ sends_in l2.
Proof. intros; unfold sends_in; apply filter_app. Qed.

Lemma process_all_log : forall gw sel db,
  db_log (process_all gw sel db) = db_log db ++ flat_map (process_message gw) sel.
Proof.
  intros gw sel. induction sel as [| m rest IH]; intros db; simpl.
  - now rewrite app_nil_r.
  - rewrite IH. simpl. now rewrite <- app_assoc.
Qed.


Lemma count_true_pos {A} (f : A -> bool) (l : list A) :
  0 < count_occ Bool.bool_dec (map f l) true <-> existsb f l = true.
Proof.
  induction l as [| a l IH]; simpl; [split; [lia | discriminate] |].
  destruct (f a); simpl; [split; [reflexivity | lia] | exact IH].
Qed.

Lemma count_false_pos {A} (f : A -> bool) (l : list A) :
  0 < count_occ Bool.bool_dec (map f l) false <-> existsb (fun x => negb (f x)) l = true.
Proof.
  induction l as [| a l IH]; simpl; [split; [lia | discriminate] |].
  destruct (f a); simpl; [exact IH | split; [reflexivity | lia]].
Qed.

Lemma forallb_existsb_negb {A} (f : A -> bool) (l : list A) :
  forallb f l = true -> existsb (fun x => negb (f x)) l = false.
Proof.
  induction l as [| a l IH]; simpl; [reflexivity |].
  destruct (f a); simpl; [exact IH | discriminate].
Qed.

Lemma forallb_nonempty_existsb {A} (f : A -> bool) (l : list A) :
  l <> [] -> forallb f l = true -> existsb f l = true.
Proof.
  destruct l as [| a l]; [congruence |]. simpl. intros _ H.
  destruct (f a); [reflexivity | discriminate].
Qed.

Lemma is_due_spec : forall now m,
  is_due now m = true -> sm_status m = Pending /\ (sm_send_at m <= now)%Z.
Proof.
  intros now m H. unfold is_due in H. apply andb_true_iff in H as [H1 H2].
  split; [destruct (sm_status m); simpl in H1; congruence | now apply Z.leb_le].
Qed.

(** C1 (counterexample): two overlapping scheduler runs that both selected
    the same pending broadcast both send it. After the first run the row is
    [sent]; the second run's claim UPDATE is keyed on the id only, still
    matches one row, and the second run sends again. *)
Lemma C1_overlapping_passes_both_send :
  map sm_status (db_sched (run_pass gw_all_ok 5 db_one)) = [Sent] /\
  rows_affected (db_sched (run_pass gw_all_ok 5 db_one)) 1 = 1 /\
  sends_for 1 (db_log (two_overlapping_passes gw_all_ok 5 db_one)) = 2.
Proof. vm_compute. repeat split. Qed.

(** C1 (amended): for any selected broadcast and any current store state
    (whatever the row's status is by then), processing starts with the
    unconditional write [status = sending] and then sends to every recipient
    group when the joined profile is connected, and to none otherwise. *)
Theorem C1_claim_write_unconditional : forall gw m db,
  exists rest,
    db_log (process_all gw [m] db) = db_log db ++ WriteStatus (sm_id m) Sending :: rest /\
    sends_in rest =
      (if profile_ready (sm_profile m) then map (SendTo (sm_id m)) (sm_group_ids m) else []).
Proof.
  intros gw m db. rewrite process_all_log. simpl. rewrite app_nil_r.
  unfold process_message.
  destruct (profile_ready (sm_profile m)); simpl.
  - pose proof (send_loop_shape gw (sm_id m) (sm_group_ids m) 0 0) as Hs.
    destruct (send_loop gw (sm_id m) (sm_group_ids m) 0 0) as [[evs sc] fc].
    destruct Hs as (Hs & _).
    eexists; split; [reflexivity |].
    rewrite sends_in_app, Hs. simpl. apply app_nil_r.
  - eexists; split; reflexivity.
Qed.

(** C2 (code_bug evaluation): three recipients, the second one failing.
    With a non-ok response the code writes three history rows (sent, failed,
    sent); with a send that throws, it writes only two, although all three
    sends are attempted. *)
Theorem C2_thrown_send_leaves_no_record :
  map hr_status (history_rows (process_message gw_second_rejected (mk 7 ["g1"; "g2"; "g3"] 0)))
    = [HSent; HFailed; HSent] /\
  length (sends_in (process_message gw_second_throws (mk 7 ["g1"; "g2"; "g3"] 0))) = 3 /\
  map hr_status (history_rows (process_message gw_second_throws (mk 7 ["g1"; "g2"; "g3"] 0)))
    = [HSent; HSent].
Proof. vm_compute. repeat split. Qed.

(** C3 (counterexample): a connected broadcast with an empty recipient list
    (reachable: [tagIds] that resolve to no group) has, vacuously, every
    recipient succeeded, yet it is finalised as [failed]. *)
Lemma C3_empty_recipients_failed :
  forallb succeeded (map (gw_all_ok 3) (sm_group_ids (mk 3 [] 0))) = true /\
  process_message gw_all_ok (mk 3 [] 0) = [WriteStatus 3 Sending; WriteStatus 3 Failed].
Proof. split; reflexivity. Qed.

(** C3 (amended): for a broadcast whose joined profile is connected, the
    events are the claim write, then the per-recipient events (one send per
    recipient, no status write among them), then exactly one final status
    write; the final status is [sent] when the recipient list is non-empty
    and every send succeeded, [partial] when at least one succeeded and at
    least one failed (error response or exception), and [failed] when none
    succeeded, an empty recipient list included. *)
Theorem C3_final_status_rollup : forall gw m,
  profile_ready (sm_profile m) = true ->
  let outs := map (gw (sm_id m)) (sm_group_ids m) in
  exists body fs,
    process_message gw m = WriteStatus (sm_id m) Sending :: body ++ [WriteStatus (sm_id m) fs] /\
    forallb (fun e => negb (is_write e)) body = true /\
    sends_in body = map (SendTo (sm_id m)) (sm_group_ids m) /\
    (outs <> [] -> forallb succeeded outs = true -> fs = Sent) /\
    (existsb succeeded outs = true -> existsb (fun o => negb (succeeded o)) outs = true ->
       fs = Partial) /\
    (existsb succeeded outs = false -> fs = Failed).
Proof.
  intros gw m Hready outs. unfold process_message. rewrite Hready. simpl.
  pose proof (send_loop_shape gw (sm_id m) (sm_group_ids m) 0 0) as Hs.
  destruct (send_loop gw (sm_id m) (sm_group_ids m) 0 0) as [[evs sc] fc].
  destruct Hs as (Hs & Hw & Hsc & Hfc). simpl in Hsc, Hfc.
  exists evs, (final_status sc fc). repeat split; try assumption.
  - intros Hne Hall. unfold final_status.
    assert (0 < sc) as Hpos.
    { rewrite Hsc. apply count_true_pos. fold outs. now apply forallb_nonempty_existsb. }
    assert (fc = 0) as Hz.
    { destruct fc as [| f]; [reflexivity |].
      assert (0 < S f) as Hp by lia. rewrite Hfc in Hp.
      apply count_false_pos in Hp. fold outs in Hp.
      rewrite forallb_existsb_negb in Hp by assumption. discriminate. }
    apply Nat.ltb_lt in Hpos. rewrite Hpos, Hz. reflexivity.
  - intros Hok Hko. unfold final_status.
    assert (0 < sc) as Hp1 by (rewrite Hsc; now apply count_true_pos).
    assert (0 < fc) as Hp2 by (rewrite Hfc; now apply count_false_pos).
    apply Nat.ltb_lt in Hp1, Hp2. now rewrite Hp1, Hp2.
  - intros Hnone. unfold final_status.
    destruct sc as [| k]; [reflexivity |].
    assert (0 < S k) as Hp by lia. rewrite Hsc in Hp.
    apply count_true_pos in Hp. fold outs in Hp. congruence.
Qed.

Lemma C3_final_status_rollup_witness :
  profile_ready (sm_profile (mk 4 ["g1"; "g2"] 0)) = true /\
  (let outs := map (gw_second_throws 4) ["g1"; "g2"] in
   exists body fs,
    process_message gw_second_throws (mk 4 ["g1"; "g2"] 0)
      = WriteStatus 4 Sending :: body ++ [WriteStatus 4 fs] /\
    forallb (fun e => negb (is_write e)) body = true /\
    sends_in body = map (SendTo 4) ["g1"; "g2"] /\
    (outs <> [] -> forallb succeeded outs = true -> fs = Sent) /\
    (existsb succeeded outs = true -> existsb (fun o => negb (succeeded o)) outs = true ->
       fs = Partial) /\
    (existsb succeeded outs = false -> fs = Failed)).
Proof.
  split; [reflexivity |].
  exact (C3_final_status_rollup gw_second_throws (mk 4 ["g1"; "g2"] 0) eq_refl).
Defined.

(** C4 (counterexample): the query has no [.order('send_at')]; with the
    store holding a broadcast due at 5 before one due at 1, the run selects
    and sends the later-due one first. *)
Lemma C4_not_oldest_first :
  map sm_id (select_due 10 [mk 1 ["g1"] 5; mk 2 ["g2"] 1]) = [1; 2] /\
  sends_in (db_log (run_pass gw_all_ok 10 {| db_sched := [mk 1 ["g1"] 5; mk 2 ["g2"] 1];
                                             db_log := [] |}))
    = [SendTo 1 "g1"; SendTo 2 "g2"].
Proof. vm_compute. split; reflexivity. Qed.

(** C4 (amended): a run selects at most 10 rows, each [pending] with
    [send_at <= now]; they are the first due rows in the store's own order
    (no ordering by [send_at]), and they are processed in that order. *)
Theorem C4_selection_bounded_due : forall gw now db,
  let sel := select_due now (db_sched db) in
  length sel <= 10 /\
  Forall (fun m => sm_status m = Pending /\ (sm_send_at m <= now)%Z) sel /\
  (exists rest, filter (is_due now) (db_sched db) = sel ++ rest) /\
  db_log (run_pass gw now db) = db_log db ++ flat_map (process_message gw) sel.
Proof.
  intros gw now db sel. repeat split.
  - apply firstn_le_length.
  - apply Forall_forall. intros m Hin. apply (is_due_spec now).
    assert (In m (filter (is_due now) (db_sched db))) as Hf.
    { rewrite <- (firstn_skipn 10 (filter (is_due now) (db_sched db))).
      apply in_or_app. now left. }
    now apply filter_In in Hf.
  - exists (skipn 10 (filter (is_due now) (db_sched db))).
    symmetry. apply firstn_skipn.
  - apply process_all_log.
Qed.

End DispatchFacts.

Module StatusMapFacts.
Import StatusMap.

(** C5 (counterexample): remote [active] is written as [disconnected] by the
    webhook and by [handleStatus], and check-status does not count
    [authenticated] as connected although the webhook maps it to [connected]. *)
Lemma C5_mappings_disagree :
  webhook_new_status "active" = "disconnected" /\
  handle_status_new_status "active" = "disconnected" /\
  webhook_new_status "authenticated" = "connected" /\
  check_status_is_connected "authenticated" = false.
Proof. repeat split. Qed.

Ltac eqb_cases s :=
  destruct (String.eqb_spec s "authenticated"); [subst; simpl; intuition congruence |];
  destruct (String.eqb_spec s "ready"); [subst; simpl; intuition congruence |];
  destruct (String.eqb_spec s "qr"); [subst; simpl; intuition congruence |];
  destruct (String.eqb_spec s "unauthorized"); [subst; simpl; intuition congruence |];
  destruct (String.eqb_spec s "active"); [subst; simpl; intuition congruence |];
  destruct (String.eqb_spec s "connected"); [subst; simpl; intuition congruence |].

(** C5 (amended): the webhook and [handleStatus] use the same map:
    [authenticated]/[ready] to [connected], [qr]/[unauthorized] to
    [unauthorized], anything else ([active] included) to [disconnected];
    check-status counts exactly [active] and [connected] as connected. *)
Theorem C5_status_mapping : forall s,
  webhook_new_status s = handle_status_new_status s /\
  (webhook_new_status s = "connected" <-> s = "authenticated" \/ s = "ready") /\
  (webhook_new_status s = "unauthorized" <-> s = "qr" \/ s = "unauthorized") /\
  (webhook_new_status s = "disconnected" <->
     ~ (s = "authenticated" \/ s = "ready" \/ s = "qr" \/ s = "unauthorized")) /\
  (check_status_is_connected s = true <-> s = "active" \/ s = "connected").
Proof.
  intros s. unfold webhook_new_status, handle_status_new_status, handle_status_connected,
    check_status_is_connected.
  eqb_cases s.
  repeat match goal with H : s <> ?c |- _ =>
    apply String.eqb_neq in H; rewrite H; clear H end.
  simpl. intuition congruence.
Qed.

End StatusMapFacts.

Module ProfileWritesFacts.
Import Effects ProfileWrites.














End ProfileWritesFacts.

Module RouterFacts.
Import Router ConnSamples.

(** C10: for an action other than connect/status/disconnect, an expired,
    unpaid trial yields 403 [Trial expired] after only the profile read; the
    three basic actions always reach their handler. *)
Theorem C10_trial_gate : forall (prof : Profile) (action : string) (now t : Z),
  (action <> "connect" -> action <> "status" -> action <> "disconnect" ->
   p_trial_expires_at prof = Some t -> (t < now)%Z ->
   p_payment_plan prof <> "monthly" -> p_payment_plan prof <> "yearly" ->
   route (Some prof) action now = ([SelectProfile], Reject 403 "Trial expired")) /\
  (forall profile, action = "connect" \/ action = "status" \/ action = "disconnect" ->
   snd (route profile action now) = Run (handler_of action)).
Proof.
  intros prof action now t. split.
  - intros H1 H2 H3 Ht Hlt Hm Hy. unfold route.
    apply String.eqb_neq in H1, H2, H3, Hm, Hy. rewrite H1, H2, H3, Ht, Hm, Hy. simpl.
    apply Z.ltb_lt in Hlt. now rewrite Hlt.
  - intros profile [-> | [-> | ->]]; reflexivity.
Qed.

Lemma C10_trial_gate_witness :
  route (Some expired_trial) "sync-groups" 100 = ([SelectProfile], Reject 403 "Trial expired") /\
  snd (route (Some expired_trial) "status" 100) = Run HStatus.
Proof.
  split.
  - apply (proj1 (C10_trial_gate expired_trial "sync-groups" 100 50));
      try discriminate; reflexivity.
  - apply (proj2 (C10_trial_gate expired_trial "status" 100 50)). right; left; reflexivity.
Defined.

End RouterFacts.

Module DisconnectFacts.
Import Effects Disconnect.

(** C8: whatever the DELETE call does (ok, non-ok or rejected), the row is
    reset ([instance_id] and [whapi_token] null, status [disconnected]) and
    the response reports success. *)
Theorem C8_disconnect_always_resets : forall (del : Fetch unit) (s : St),
  handleDisconnect del s =
    (Ret {| dr_success := true; dr_message := "WhatsApp disconnected" |},
     {| st_profile := option_map reset_connection (st_profile s);
        st_calls := st_calls s ++
          match st_profile s with
          | Some p => if truthy (p_instance_id p)
                      then ["DELETE manager/channels/{instance_id}"] else []
          | None => []
          end;
        st_sleeps := st_sleeps s |}).
Proof.
  intros del [prof calls sleeps]. unfold handleDisconnect, bind, get_profile; simpl.
  destruct prof as [p |]; simpl.
  - destruct (truthy (p_instance_id p)); simpl.
    + unfold catch, fetch; destruct del; reflexivity.
    + unfold update_profile, ret; simpl. now rewrite app_nil_r.
  - unfold update_profile, ret; simpl. now rewrite app_nil_r.
Qed.

End DisconnectFacts.

Module CheckStatusFacts.
Import Effects CheckStatus.

(** C7: with the partner token configured and a stored, non-empty
    [instance_id] that the gateway reports as gone (absent from a listed
    instance set, or a 404 from the status endpoint after a verification
    call that did not reject), the row is reset and the response carries
    [connected = false] and [requiresNewInstance = true]. *)
Theorem C7_orphan_cleanup : forall partner verify status s p id,
  partner <> "" -> st_profile s = Some p -> p_instance_id p = Some id -> id <> "" ->
  ((exists insts, verify = FOk insts /\ existsb (inst_matches id) insts = false) \/
   (verify <> FThrow /\ status = FNotOk 404)) ->
  exists r s',
    check_status partner verify status s = (Ret r, s') /\
    cr_connected r = false /\ cr_requiresNewInstance r = true /\
    st_profile s' = Some (reset_connection p).
Proof.
  intros partner verify status [prof calls sleeps] p id Hp Hprof Hid Hne Hgone.
  simpl in Hprof; subst prof.
  apply String.eqb_neq in Hp, Hne.
  unfold check_status, check_status_body, catch, bind, get_profile.
  rewrite Hp. simpl. rewrite Hid, Hne.
  destruct Hgone as [(insts & -> & Habs) | (Hv & ->)].
  - simpl. rewrite Habs. simpl. eexists _, _. repeat split.
  - destruct verify as [| c | insts]; [congruence | |]; simpl.
    + eexists _, _. repeat split.
    + destruct (existsb (inst_matches id) insts); simpl; eexists _, _; repeat split.
Qed.

Lemma C7_orphan_cleanup_witness :
  exists r s',
    check_status "partner" (FOk [{| inst_instanceId := Some "other"; inst_id := None |}])
      (FOk "active") (ConnSamples.st_of ConnSamples.stale_profile) = (Ret r, s') /\
    cr_connected r = false /\ cr_requiresNewInstance r = true /\
    st_profile s' = Some (reset_connection ConnSamples.stale_profile).
Proof.
  apply (C7_orphan_cleanup "partner" _ _ (ConnSamples.st_of ConnSamples.stale_profile)
           ConnSamples.stale_profile "ch-old");
    try discriminate; try reflexivity.
  left. eexists; split; reflexivity.
Defined.

End CheckStatusFacts.

Module ConnectFacts.
Import Effects Connect ConnSamples.

Lemma fetch_qr_spec : forall r s,
  let '(x, s') := fetch_qr r s in
  adds s s' 1 [] /\
  (x = Ret None \/ (exists c, x = Ret (Some (QrCode c))) \/ exists e, x = Throw e).
Proof.
  intros r [prof calls sleeps]. unfold fetch_qr, bind, fetch.
  destruct r as [| c | body]; simpl.
  - split; [exists ["GET gate/qr"]; simpl; repeat split; auto; now rewrite app_nil_r |].
    right; right; eauto.
  - split; [exists ["GET gate/qr"]; simpl; repeat split; auto; now rewrite app_nil_r |].
    now left.
  - destruct (qr_of body); simpl;
      (split; [exists ["GET gate/qr"]; simpl; repeat split; auto; now rewrite app_nil_r |]).
    + right; left; eauto.
    + now left.
Qed.

Lemma qr_loop_spec : forall gw n s,
  let '(x, s') := qr_loop gw n s in
  exists k, k <= n /\ adds s s' (2 * n) (repeat 2000 k) /\
  (x = Ret None \/ (exists c, x = Ret (Some (QrCode c))) \/ exists e, x = Throw e).
Proof.
  intros gw n. induction n as [| n IH]; intros s.
  - exists 0. split; [lia |]. split; [exists []; rewrite !app_nil_r; simpl; auto | now left].
  - destruct s as [prof calls sleeps]. cbn [qr_loop]. unfold bind at 1, fetch at 1.
    destruct (cg_health gw (8 - S n)) as [| c | status]; simpl.
    + exists 0. split; [lia |]. split; [| right; right; eauto].
      exists ["GET gate/health"]; simpl; repeat split; [lia | now rewrite app_nil_r].
    + unfold bind, ret, sleep. simpl.
      specialize (IH {| st_profile := prof; st_calls := calls ++ ["GET gate/health"];
                        st_sleeps := sleeps ++ [2000] |}).
      destruct (qr_loop gw n _) as [x s'] eqn:E.
      destruct IH as (k & Hk & (cs & Hc & Hl & Hs) & Hx). simpl in Hc, Hs.
      exists (S k). split; [lia |]. split; [| exact Hx].
      exists ("GET gate/health" :: cs). simpl. rewrite Hc, Hs, <- !app_assoc. simpl.
      repeat split; lia.
    + destruct (needs_qr status).
      * pose proof (fetch_qr_spec (cg_qr gw (8 - S n))
           {| st_profile := prof; st_calls := calls ++ ["GET gate/health"];
              st_sleeps := sleeps |}) as Hq.
        unfold bind at 1.
        destruct (fetch_qr _ _) as [y s1] eqn:Ey.
        destruct Hq as ((cs1 & Hc1 & Hl1 & Hs1) & Hy). simpl in Hc1, Hs1.
        destruct Hy as [-> | [(c & ->) | (e & ->)]].
        -- unfold bind, sleep. destruct s1 as [p1 c1 sl1]. simpl in *.
           specialize (IH {| st_profile := p1; st_calls := c1; st_sleeps := sl1 ++ [2000] |}).
           destruct (qr_loop gw n _) as [x s'] eqn:E.
           destruct IH as (k & Hk & (cs & Hc & Hl & Hs) & Hx). simpl in Hc, Hs.
           exists (S k). split; [lia |]. split; [| exact Hx].
           exists ("GET gate/health" :: cs1 ++ cs). simpl.
           rewrite Hc, Hs, Hc1, Hs1, <- !app_assoc. simpl.
           repeat split. rewrite length_app. lia.
        -- exists 0. split; [lia |]. split; [| right; left; eauto].
           exists ("GET gate/health" :: cs1). simpl. rewrite Hc1, Hs1, <- !app_assoc.
           simpl. repeat split; rewrite ?app_nil_r; try reflexivity; lia.
        -- exists 0. split; [lia |]. split; [| right; right; eauto].
           exists ("GET gate/health" :: cs1). simpl. rewrite Hc1, Hs1, <- !app_assoc.
           simpl. repeat split; rewrite ?app_nil_r; try reflexivity; lia.
      * unfold bind, ret, sleep. simpl.
        specialize (IH {| st_profile := prof; st_calls := calls ++ ["GET gate/health"];
                          st_sleeps := sleeps ++ [2000] |}).
        destruct (qr_loop gw n _) as [x s'] eqn:E.
        destruct IH as (k & Hk & (cs & Hc & Hl & Hs) & Hx). simpl in Hc, Hs.
        exists (S k). split; [lia |]. split; [| exact Hx].
        exists ("GET gate/health" :: cs). simpl. rewrite Hc, Hs, <- !app_assoc. simpl.
        repeat split; lia.
Qed.

Lemma bind_ret {A B} (m : M A) (f : A -> M B) s a s' :
  m s = (Ret a, s') -> bind m f s = f a s'.
Proof. intros H. unfold bind. now rewrite H. Qed.

Lemma bind_throw {A B} (m : M A) (f : A -> M B) s e s' :
  m s = (Throw e, s') -> bind m f s = (Throw e, s').
Proof. intros H. unfold bind. now rewrite H. Qed.

Lemma adds_app : forall s1 s2 s3 c1 c2 d1 d2,
  adds s1 s2 c1 d1 -> adds s2 s3 c2 d2 -> adds s1 s3 (c1 + c2) (d1 ++ d2).
Proof.
  intros s1 s2 s3 c1 c2 d1 d2 (cs1 & Hc1 & Hl1 & Hs1) (cs2 & Hc2 & Hl2 & Hs2).
  exists (cs1 ++ cs2). rewrite Hc2, Hc1, Hs2, Hs1, <- !app_assoc.
  repeat split. rewrite length_app. lia.
Qed.

Lemma adds_weaken : forall s s' c c' d, c <= c' -> adds s s' c d -> adds s s' c' d.
Proof. intros s s' c c' d Hle (cs & H1 & H2 & H3). exists cs. repeat split; auto; lia. Qed.

Lemma check_existing_no_token : forall gw profile s,
  (forall p, profile = Some p -> truthy (p_whapi_token p) = false) ->
  check_existing gw profile s = (Ret None, s).
Proof.
  intros gw [p |] s H; simpl; [rewrite (H p eq_refl) |]; reflexivity.
Qed.

Lemma cleanup_old_spec : forall gw profile s,
  let '(x, s') := cleanup_old gw profile s in x = Ret tt /\ adds s s' 1 [].
Proof.
  intros gw [p |] [prof calls sleeps]; unfold cleanup_old.
  - destruct (truthy (p_instance_id p)).
    + unfold catch, bind, fetch, ret.
      destruct (cg_delete gw); simpl; (split; [reflexivity |]);
        exists ["DELETE manager/channels/{instance_id}"]; simpl;
        repeat split; rewrite ?app_nil_r; try reflexivity; lia.
    + split; [reflexivity |]. exists []. simpl. rewrite !app_nil_r. repeat split; lia.
  - split; [reflexivity |]. exists []. simpl. rewrite !app_nil_r. repeat split; lia.
Qed.

Lemma resolve_project_spec : forall gw env s,
  let '(x, s') := resolve_project gw env s in
  adds s s' 1 [] /\ ((exists e, x = Throw e) \/ exists pid, x = Ret pid).
Proof.
  intros gw env [prof calls sleeps]. unfold resolve_project.
  destruct (truthy env).
  - split; [| right; eauto]. exists []. simpl. rewrite !app_nil_r. repeat split; lia.
  - unfold bind, fetch. destruct (cg_projects gw) as [| c | [| first rest]]; simpl;
      (split; [exists ["GET manager/projects"]; simpl;
               repeat split; rewrite ?app_nil_r; try reflexivity; lia |]);
      eauto.
Qed.

Lemma finish_new_channel_spec : forall gw cid token s,
  let '(x, s') := finish_new_channel gw cid token s in
  (exists k, k <= 8 /\ adds s s' 17 (3000 :: repeat 2000 k)) /\
  ((exists e, x = Throw e) \/ (exists c, x = Ret (QrCode c)) \/
   (exists id, x = Ret (InstanceCreated id))).
Proof.
  intros gw cid token [prof calls sleeps]. unfold finish_new_channel.
  unfold bind at 1 2 3 4, catch, fetch at 1, ret at 1 2, update_profile, sleep.
  assert (forall s1, adds {| st_profile := prof; st_calls := calls; st_sleeps := sleeps |}
                      s1 1 [] ->
    let '(x, s') :=
      (let* r := qr_loop gw 8 in
       match r with Some resp => ret resp | None => ret (InstanceCreated cid) end)
      {| st_profile := st_profile s1; st_calls := st_calls s1;
         st_sleeps := st_sleeps s1 ++ [3000] |} in
    (exists k, k <= 8 /\ adds {| st_profile := prof; st_calls := calls; st_sleeps := sleeps |}
                           s' 17 (3000 :: repeat 2000 k)) /\
    ((exists e, x = Throw e) \/ (exists c, x = Ret (QrCode c)) \/
     (exists id, x = Ret (InstanceCreated id)))) as Hk.
  { intros s1 H1. unfold bind.
    pose proof (qr_loop_spec gw 8 {| st_profile := st_profile s1; st_calls := st_calls s1;
                                     st_sleeps := st_sleeps s1 ++ [3000] |}) as HL.
    destruct (qr_loop gw 8 _) as [x s'].
    destruct HL as (k & Hk & Hadd & Hx).
    assert (adds {| st_profile := prof; st_calls := calls; st_sleeps := sleeps |} s' 17
              (3000 :: repeat 2000 k)) as Hall.
    { destruct H1 as (cs1 & Hc1 & Hl1 & Hs1). destruct Hadd as (cs & Hc & Hl & Hs).
      simpl in *. exists (cs1 ++ cs). rewrite Hc, Hs, Hc1, Hs1, <- !app_assoc.
      repeat split. rewrite length_app. lia. }
    destruct Hx as [-> | [(c & ->) | (e & ->)]]; simpl; split; eauto. }
  destruct (cg_settings gw); cbn -[qr_loop];
    match goal with |- context [option_map ?f prof] =>
      apply (Hk {| st_profile := option_map f prof; st_calls := calls ++ ["PATCH gate/settings"];
                   st_sleeps := sleeps |}) end;
    exists ["PATCH gate/settings"]; simpl; repeat split; rewrite ?app_nil_r; try reflexivity; lia.
Qed.

(** C6 (counterexample): with a channel that stays launching, the retry
    delays are 2000 ms each time (no doubling); when channel creation is
    refused the connect action throws (answered with HTTP 500) rather than
    returning a QR code or an initializing acknowledgement. *)
Lemma C6_fixed_delay_and_error :
  handleConnect gw_never_ready None (st_of fresh_profile) =
    (Ret (InstanceCreated "ch1"),
     {| st_profile := Some {| p_instance_id := Some "ch1"; p_whapi_token := Some "tok1";
                              p_instance_status := "initializing"; p_payment_plan := "trial";
                              p_trial_expires_at := Some 1000%Z |};
        st_calls := ["GET manager/projects"; "PUT manager/channels"; "PATCH gate/settings"]
                    ++ repeat "GET gate/health" 8;
        st_sleeps := [3000; 2000; 2000; 2000; 2000; 2000; 2000; 2000; 2000] |}) /\
  fst (handleConnect gw_create_refused None (st_of fresh_profile))
    = Throw "Failed to create channel".
Proof. split; reflexivity. Qed.

(** C6 (amended): for a user without a stored token, [handleConnect] makes
    at most 20 gateway calls, waits 3000 ms then at most 8 further fixed
    2000 ms delays (or none when it fails before the channel exists), and
    ends with a QR code, an "instance created" acknowledgement, or a thrown
    error (project resolution or channel creation failed, or a gateway call
    rejected). *)
Theorem C6_connect_bounded : forall gw env s,
  (forall p, st_profile s = Some p -> truthy (p_whapi_token p) = false) ->
  let '(r, s') := handleConnect gw env s in
  (exists ds, adds s s' 20 ds /\ (ds = [] \/ exists k, k <= 8 /\ ds = 3000 :: repeat 2000 k)) /\
  ((exists e, r = Throw e) \/ (exists c, r = Ret (QrCode c)) \/
   (exists id, r = Ret (InstanceCreated id))).
Proof.
  intros gw env s Hno. unfold handleConnect.
  rewrite (bind_ret get_profile _ s (st_profile s) s eq_refl).
  rewrite (bind_ret _ _ s None s (check_existing_no_token gw (st_profile s) s Hno)).
  pose proof (cleanup_old_spec gw (st_profile s) s) as Hc.
  destruct (cleanup_old gw (st_profile s) s) as [x1 s1] eqn:E1. destruct Hc as (-> & Hc).
  rewrite (bind_ret _ _ s tt s1 E1).
  pose proof (resolve_project_spec gw env s1) as Hr.
  destruct (resolve_project gw env s1) as [x2 s2] eqn:E2.
  destruct Hr as (Hr & [(e & ->) | (pid & ->)]).
  { rewrite (bind_throw _ _ s1 e s2 E2).
    split; [| left; eauto]. exists []. split; [| now left].
    replace 20 with (1 + 19) by lia. rewrite <- (app_nil_r []).
    apply adds_app with s1; [exact Hc | eapply adds_weaken; [| exact Hr]; lia]. }
  rewrite (bind_ret _ _ s1 pid s2 E2).
  assert (adds s s2 2 []) as H12.
  { replace 2 with (1 + 1) by lia. rewrite <- (app_nil_r []). now apply adds_app with s1. }
  destruct (truthy pid); cbn [negb].
  2: { split; [| left; eauto]. exists []. split; [eapply adds_weaken; [| exact H12]; lia |].
       now left. }
  destruct s2 as [p2 c2 sl2].
  set (s3 := {| st_profile := p2; st_calls := c2 ++ ["PUT manager/channels"]; st_sleeps := sl2 |}).
  assert (adds s s3 3 []) as H3.
  { replace 3 with (2 + 1) by lia. rewrite <- (app_nil_r []). apply adds_app with
      {| st_profile := p2; st_calls := c2; st_sleeps := sl2 |}; [exact H12 |].
    exists ["PUT manager/channels"]; simpl; repeat split; rewrite ?app_nil_r; reflexivity || lia. }
  destruct (cg_create gw) as [| c | [cid token]] eqn:Ec.
  - rewrite (bind_throw _ _ _ "fetch failed" s3) by reflexivity.
    split; [| left; eauto]. exists []. split; [eapply adds_weaken; [| exact H3]; lia | now left].
  - rewrite (bind_ret _ _ _ (NotOk c) s3) by reflexivity.
    split; [| left; eauto]. exists []. split; [eapply adds_weaken; [| exact H3]; lia | now left].
  - rewrite (bind_ret _ _ _ (Ok (cid, token)) s3) by reflexivity.
    pose proof (finish_new_channel_spec gw cid token s3) as Hf.
    destruct (finish_new_channel gw cid token s3) as [x s'].
    destruct Hf as ((k & Hk & Hadd) & Hx). split; [| exact Hx].
    exists (3000 :: repeat 2000 k). split; [| right; eauto].
    exact (adds_app s s3 s' 3 17 [] (3000 :: repeat 2000 k) H3 Hadd).
Qed.

Lemma C6_connect_bounded_witness :
  (forall p, st_profile (st_of fresh_profile) = Some p -> truthy (p_whapi_token p) = false) /\
  (let '(r, s') := handleConnect gw_qr_third None (st_of fresh_profile) in
   (exists ds, adds (st_of fresh_profile) s' 20 ds /\
      (ds = [] \/ exists k, k <= 8 /\ ds = 3000 :: repeat 2000 k)) /\
   ((exists e, r = Throw e) \/ (exists c, r = Ret (QrCode c)) \/
    (exists id, r = Ret (InstanceCreated id)))).
Proof.
  assert (forall p, st_profile (st_of fresh_profile) = Some p ->
                    truthy (p_whapi_token p) = false) as H.
  { intros p Hp. injection Hp as <-. reflexivity. }
  split; [exact H |].
  exact (C6_connect_bounded gw_qr_third None (st_of fresh_profile) H).
Defined.

End ConnectFacts.

Module StatusHandlerFacts.
Import Effects StatusHandler.

Lemma set_status_same : forall x p, p_instance_status p = x -> set_status x p = p.
Proof. intros x [] H; simpl in H; subst; reflexivity. Qed.

(** handleStatus: without a stored token (no row, or a null or empty
    [whapi_token]) the answer is [no_instance], no gateway call is made and
    nothing is written. *)
Theorem status_no_token_no_call : forall health now s,
  (forall p, st_profile s = Some p -> truthy (p_whapi_token p) = false) ->
  handleStatus health now s = (Ret NoInstance, s).
Proof.
  intros health now [[p |] calls sleeps] H; unfold handleStatus, bind, get_profile; simpl.
  - now rewrite (H p eq_refl).
  - reflexivity.
Qed.

Lemma status_no_token_no_call_witness :
  handleStatus (FOk "authenticated") 0 (ConnSamples.st_of ConnSamples.fresh_profile)
  = (Ret NoInstance, ConnSamples.st_of ConnSamples.fresh_profile).
Proof.
  apply status_no_token_no_call. intros p Hp. injection Hp as <-. reflexivity.
Defined.

(** handleStatus with a stored token: exactly one health call; when the
    health check answers ok, the row's status ends as the mapped status
    ([connected] / [unauthorized] / [disconnected]) and the response reports
    the gateway status, [connected] and the trial flag; when it fails or
    rejects, the row is unchanged. *)
Theorem status_row_follows_health : forall health now s p,
  st_profile s = Some p -> truthy (p_whapi_token p) = true ->
  snd (handleStatus health now s) =
    {| st_profile := Some (match health with
                           | FOk st => set_status (StatusMap.handle_status_new_status st) p
                           | _ => p
                           end);
       st_calls := st_calls s ++ ["GET gate/health"]; st_sleeps := st_sleeps s |} /\
  (forall st, health = FOk st ->
     fst (handleStatus health now s) =
       Ret (StatusReport (StatusMap.handle_status_connected st) st (trial_blocked p now))) /\
  (forall c, health = FNotOk c -> fst (handleStatus health now s) = Ret StatusCheckFailed).
Proof.
  intros health now [prof calls sleeps] p Hp Ht; simpl in Hp; subst prof.
  unfold handleStatus, bind, get_profile, fetch; simpl. rewrite Ht; simpl.
  destruct health as [| c | st]; simpl.
  - repeat split; intros; discriminate.
  - repeat split; intros; try discriminate; reflexivity.
  - destruct (String.eqb (StatusMap.handle_status_new_status st) (p_instance_status p)) eqn:E;
      simpl.
    + apply String.eqb_eq in E. rewrite (set_status_same _ p (eq_sym E)).
      repeat split; intros; try discriminate; congruence.
    + repeat split; intros; try discriminate; congruence.
Qed.

Lemma status_row_follows_health_witness :
  st_profile (ConnSamples.st_of ConnSamples.stale_profile) = Some ConnSamples.stale_profile /\
  truthy (p_whapi_token ConnSamples.stale_profile) = true /\
  snd (handleStatus (FOk "qr") 0 (ConnSamples.st_of ConnSamples.stale_profile)) =
    {| st_profile := Some (set_status (StatusMap.handle_status_new_status "qr")
                                      ConnSamples.stale_profile);
       st_calls := [] ++ ["GET gate/health"]; st_sleeps := [] |}.
Proof.
  split; [reflexivity | split; [reflexivity |]].
  exact (proj1 (status_row_follows_health (FOk "qr") 0
                  (ConnSamples.st_of ConnSamples.stale_profile) ConnSamples.stale_profile
                  eq_refl eq_refl)).
Defined.

End StatusHandlerFacts.

Module WebhookFacts.
Import Webhook.


Lemma has_instance_set_status : forall id x row,
  has_instance id (fst row, set_status x (snd row)) = has_instance id row.
Proof. intros id x [u p]; reflexivity. Qed.

Lemma set_status_set_status : forall x p, set_status x (set_status x p) = set_status x p.
Proof. intros x []; reflexivity. Qed.


(** Webhook: delivering the same event twice leaves the table as one
    delivery does (only [instance_status] is modelled; [updated_at] is
    rewritten by each delivery). *)
Theorem webhook_redelivery_idempotent : forall ev tbl,
  handle_webhook ev (handle_webhook ev tbl) = handle_webhook ev tbl.
Proof.
  intros ev tbl. unfold handle_webhook.
  destruct (String.eqb (we_event ev) "channel" && truthy (we_data_id ev)); [| reflexivity].
  destruct (we_data_id ev) as [id |]; [| reflexivity].
  destruct (Nat.ltb 0 (length (filter (has_instance id) tbl))) eqn:Elt; [| now rewrite Elt].
  set (f := fun row : string * Profile =>
              if has_instance id row
              then (fst row, set_status (event_new_status (we_data_status ev)) (snd row))
              else row).
  assert (Hf : forall row, has_instance id (f row) = has_instance id row).
  { intros row. unfold f. destruct (has_instance id row) eqn:E; [| exact E].
    rewrite has_instance_set_status. exact E. }
  assert (Hlen : forall l, filter (has_instance id) (map f l) = map f (filter (has_instance id) l)).
  { induction l as [| r l IH]; simpl; [reflexivity |]. rewrite Hf.
    destruct (has_instance id r); simpl; now rewrite IH. }
  rewrite Hlen, length_map, Elt, map_map.
  apply map_ext. intros row. unfold f. destruct (has_instance id row) eqn:E.
  - rewrite has_instance_set_status, E. simpl. now rewrite set_status_set_status.
  - now rewrite E.
Qed.

End WebhookFacts.

Module SendMessageFacts.
Import Dispatch SendMessage.

Lemma send_all_spec : forall gw gs sc,
  let '(rs, evs, sc') := send_all gw gs sc in
  map res_groupId rs = gs /\ map res_success rs = map (fun g => succeeded (gw g)) gs /\
  sc' = sc + length (filter (fun g => succeeded (gw g)) gs) /\
  filter is_direct_send evs = map DirectSend gs /\
  filter (fun e => negb (is_direct_send e)) evs = flat_map (history_of gw) gs.
Proof.
  intros gw gs. induction gs as [| g rest IH]; intros sc; simpl.
  - repeat split; lia.
  - unfold history_of at 1.
    destruct (gw g) as [| err | mid]; simpl;
      [specialize (IH sc) | specialize (IH sc) | specialize (IH (S sc))];
      destruct (send_all gw rest _) as [[rs evs] sc'];
      destruct IH as (H1 & H2 & H3 & H4 & H5); simpl;
      rewrite ?H1, ?H2, ?H4, ?H5; repeat split; try reflexivity; lia.
Qed.

(** handleSendMessage: a request without groups or with an empty message,
    or from a user whose row is not connected (no token, or status other
    than [connected]), is answered 400 without any send or history row. *)
Theorem send_rejected_without_effects : forall profile gw gids msg,
  gids = [] \/ msg = "" \/
  ~ (exists p, profile = Some p /\ truthy (p_whapi_token p) = true /\
               p_instance_status p = "connected") ->
  exists e, handleSendMessage profile gw gids msg = (SendBad e, []).
Proof.
  intros profile gw gids msg H. unfold handleSendMessage.
  destruct (Nat.eqb (length gids) 0) eqn:E0; simpl; [eauto |].
  destruct (String.eqb msg "") eqn:Em; simpl; [eauto |].
  destruct H as [-> | [-> | Hnc]]; [discriminate | discriminate |].
  destruct profile as [p |]; [| eauto].
  destruct (truthy (p_whapi_token p) && String.eqb (p_instance_status p) "connected") eqn:Ec;
    [| eauto].
  exfalso. apply Hnc. apply andb_true_iff in Ec as [Ht Hs].
  exists p. repeat split; auto. now apply String.eqb_eq.
Qed.

Lemma send_rejected_without_effects_witness :
  exists e, handleSendMessage (Some ConnSamples.fresh_profile) (fun _ => SendOk "m")
              ["g1"] "hi" = (SendBad e, []).
Proof.
  apply send_rejected_without_effects. right; right.
  intros (p & Hp & Ht & _). injection Hp as <-. discriminate.
Defined.

(** handleSendMessage for a connected user: one result per group, in the
    request's order; a group succeeds exactly when its send answered ok;
    the counts are the number of ok sends and the number of groups, and
    [success] is [sent > 0]. Every group gets exactly one send, in order,
    and a history row is written for each send that got an HTTP answer
    ([sent] or [failed]) but none for a send that threw. *)
Theorem send_results_per_group : forall p gw gids msg,
  truthy (p_whapi_token p) = true -> p_instance_status p = "connected" ->
  gids <> [] -> msg <> "" ->
  exists rs evs sent,
    handleSendMessage (Some p) gw gids msg = (SendDone (Nat.ltb 0 sent) rs sent (length gids), evs) /\
    map res_groupId rs = gids /\
    map res_success rs = map (fun g => succeeded (gw g)) gids /\
    sent = length (filter (fun g => succeeded (gw g)) gids) /\
    filter is_direct_send evs = map DirectSend gids /\
    filter (fun e => negb (is_direct_send e)) evs = flat_map (history_of gw) gids.
Proof.
  intros p gw gids msg Ht Hs Hg Hm. unfold handleSendMessage.
  destruct (Nat.eqb (length gids) 0) eqn:E0.
  { apply Nat.eqb_eq, length_zero_iff_nil in E0. contradiction. }
  apply String.eqb_neq in Hm. rewrite Hm, Ht, Hs. simpl.
  pose proof (send_all_spec gw gids 0) as Hsp.
  destruct (send_all gw gids 0) as [[rs evs] sc].
  destruct Hsp as (H1 & H2 & H3 & H4 & H5).
  exists rs, evs, sc. repeat split; auto.
Qed.

Lemma send_results_per_group_witness :
  exists rs evs sent,
    handleSendMessage (Some ConnSamples.stale_profile) (DispatchSamples.gw_second_throws 0)
      ["g1"; "g2"] "hi" = (SendDone (Nat.ltb 0 sent) rs sent 2, evs) /\
    map res_groupId rs = ["g1"; "g2"] /\
    map res_success rs = map (fun g => succeeded ((DispatchSamples.gw_second_throws 0) g)) ["g1"; "g2"] /\
    sent = length (filter (fun g => succeeded ((DispatchSamples.gw_second_throws 0) g)) ["g1"; "g2"]) /\
    filter is_direct_send evs = map DirectSend ["g1"; "g2"] /\
    filter (fun e => negb (is_direct_send e)) evs =
      flat_map (history_of (DispatchSamples.gw_second_throws 0)) ["g1"; "g2"].
Proof.
  apply (send_results_per_group ConnSamples.stale_profile (DispatchSamples.gw_second_throws 0)
           ["g1"; "g2"] "hi"); [reflexivity | reflexivity | discriminate | discriminate].
Defined.

End SendMessageFacts.

Module ScheduleMessageFacts.
Import ScheduleMessage.

Lemma existsb_eqb_in : forall x l, existsb (String.eqb x) l = true <-> In x l.
Proof.
  intros x l. rewrite existsb_exists. split.
  - intros (y & Hy & E). apply String.eqb_eq in E. now subst.
  - intros H. exists x. split; [exact H | apply String.eqb_refl].
Qed.

Lemma set_spread_spec : forall xs seen,
  NoDup (set_spread seen xs) /\
  (forall x, In x (set_spread seen xs) <-> In x xs /\ ~ In x seen).
Proof.
  induction xs as [| a rest IH]; intros seen; simpl.
  - split; [constructor | tauto].
  - destruct (existsb (String.eqb a) seen) eqn:E.
    + apply existsb_eqb_in in E. destruct (IH seen) as [Hn Hi]. split; [exact Hn |].
      intros x. rewrite Hi. split; [tauto |].
      intros [[<- | Hx] Hs]; [contradiction | tauto].
    + destruct (IH (a :: seen)) as [Hn Hi]. split.
      * constructor; [| exact Hn]. rewrite Hi. simpl. tauto.
      * intros x. simpl. rewrite Hi. simpl.
        assert (~ In a seen) by (intros Ha; apply existsb_eqb_in in Ha; congruence).
        split.
        -- intros [<- | [Hx Hs]]; tauto.
        -- intros [[<- | Hx] Hs]; [now left |].
           destruct (String.eqb_spec x a) as [-> | Hne]; [now left |].
           right. split; [exact Hx | intros [Ea | Ea]; [congruence | contradiction]].
Qed.

(** handleScheduleMessage: a request without message, without send time,
    or with neither group ids nor tag ids is answered 400 before any query
    or insert. *)
Theorem schedule_invalid_no_ops : forall d tagged ok,
  ~ valid d ->
  handleScheduleMessage d tagged ok =
    (ScheduleBad "Message, recipients, and send time are required", []).
Proof.
  intros d tagged ok Hv. unfold handleScheduleMessage.
  destruct (truthy (sd_message d)) eqn:E1; simpl; [| reflexivity].
  destruct (nonempty_list (sd_groupIds d)) eqn:E2; simpl;
  destruct (nonempty_list (sd_tagIds d)) eqn:E3; simpl;
  destruct (truthy (sd_sendAt d)) eqn:E4; simpl; try reflexivity;
  exfalso; apply Hv; repeat split; auto.
Qed.

Lemma schedule_invalid_no_ops_witness :
  handleScheduleMessage {| sd_message := Some "hi"; sd_groupIds := Some [];
                           sd_tagIds := None; sd_sendAt := Some "2026-01-01" |} None true =
    (ScheduleBad "Message, recipients, and send time are required", []).
Proof.
  apply schedule_invalid_no_ops. intros (_ & _ & [H | H]); discriminate.
Defined.

(** handleScheduleMessage with tag ids whose lookup returns groups: the
    inserted [group_ids] have no duplicates and are exactly the groups given
    directly together with the tagged groups. *)
Theorem schedule_tags_union_dedup : forall d tgs ok,
  valid d -> nonempty_list (sd_tagIds d) = true ->
  exists ids,
    snd (handleScheduleMessage d (Some tgs) ok) = [QueryTaggedGroups; InsertScheduled ids] /\
    NoDup ids /\
    (forall x, In x ids <->
       In x (match sd_groupIds d with Some g => g | None => [] end) \/ In x tgs).
Proof.
  intros d tgs ok (H1 & H2 & _) Ht. unfold handleScheduleMessage.
  rewrite H1, H2, Ht. simpl. rewrite andb_false_r. simpl.
  eexists. split; [reflexivity |].
  destruct (set_spread_spec (match sd_groupIds d with Some g => g | None => [] end ++ tgs) [])
    as [Hn Hi].
  split; [exact Hn |]. intros x. rewrite Hi, in_app_iff. simpl. tauto.
Qed.

Lemma schedule_tags_union_dedup_witness :
  exists ids,
    snd (handleScheduleMessage {| sd_message := Some "hi"; sd_groupIds := Some ["g1"; "g2"];
                                  sd_tagIds := Some ["t1"]; sd_sendAt := Some "2026-01-01" |}
           (Some ["g2"; "g3"]) true) = [QueryTaggedGroups; InsertScheduled ids] /\
    NoDup ids /\ (forall x, In x ids <-> In x ["g1"; "g2"] \/ In x ["g2"; "g3"]).
Proof.
  apply (schedule_tags_union_dedup
           {| sd_message := Some "hi"; sd_groupIds := Some ["g1"; "g2"];
              sd_tagIds := Some ["t1"]; sd_sendAt := Some "2026-01-01" |} ["g2"; "g3"] true).
  - repeat split; left; reflexivity.
  - reflexivity.
Defined.

(** handleScheduleMessage without tag ids: the given [groupIds] are stored
    as they are, duplicates included, with no tag query. *)
Theorem schedule_no_tags_verbatim : forall d tagged ok gids,
  valid d -> nonempty_list (sd_tagIds d) = false -> sd_groupIds d = Some gids ->
  snd (handleScheduleMessage d tagged ok) = [InsertScheduled gids].
Proof.
  intros d tagged ok gids (H1 & H2 & Hr) Ht Hg. unfold handleScheduleMessage.
  rewrite H1, H2, Ht, Hg. rewrite Ht, Hg in Hr. simpl.
  destruct gids; [destruct Hr; discriminate | reflexivity].
Qed.

Lemma schedule_no_tags_verbatim_witness :
  snd (handleScheduleMessage {| sd_message := Some "hi"; sd_groupIds := Some ["g1"; "g1"];
                                sd_tagIds := None; sd_sendAt := Some "2026-01-01" |} None true)
  = [InsertScheduled ["g1"; "g1"]].
Proof.
  apply schedule_no_tags_verbatim; [| reflexivity | reflexivity].
  repeat split; left; reflexivity.
Defined.

(** handleScheduleMessage with tag ids only, whose lookup finds no group:
    a broadcast with an empty [group_ids] is inserted and, if the insert
    succeeds, reported as scheduled. *)
Theorem schedule_tags_without_groups_empty : forall d ok,
  valid d -> nonempty_list (sd_groupIds d) = false -> nonempty_list (sd_tagIds d) = true ->
  handleScheduleMessage d (Some []) ok =
    (if ok then Scheduled else ScheduleBad "Failed to schedule message",
     [QueryTaggedGroups; InsertScheduled []]).
Proof.
  intros d ok (H1 & H2 & _) Hg Ht. unfold handleScheduleMessage.
  rewrite H1, H2, Hg, Ht. simpl.
  destruct (sd_groupIds d) as [[| g gs] |]; [reflexivity | discriminate | reflexivity].
Qed.

Lemma schedule_tags_without_groups_empty_witness :
  handleScheduleMessage {| sd_message := Some "hi"; sd_groupIds := None;
                           sd_tagIds := Some ["t1"]; sd_sendAt := Some "2026-01-01" |} (Some []) true
  = (Scheduled, [QueryTaggedGroups; InsertScheduled []]).
Proof.
  apply (schedule_tags_without_groups_empty
           {| sd_message := Some "hi"; sd_groupIds := None;
              sd_tagIds := Some ["t1"]; sd_sendAt := Some "2026-01-01" |} true);
    [repeat split; right; reflexivity | reflexivity | reflexivity].
Defined.

End ScheduleMessageFacts.

Module SyncGroupsFacts.
Import SyncGroups.

Lemma filter_mine_kept : forall u tbl,
  filter (mine u) (filter (fun r => negb (String.eqb (gr_user_id r) u)) tbl) = [].
Proof.
  intros u tbl. unfold mine. induction tbl as [| r rest IH]; simpl; [reflexivity |].
  destruct (String.eqb (gr_user_id r) u) eqn:E; simpl; rewrite ?E; exact IH.
Qed.

Lemma filter_others_kept : forall u tbl,
  filter (fun r => negb (mine u r)) (filter (fun r => negb (String.eqb (gr_user_id r) u)) tbl)
  = filter (fun r => negb (mine u r)) tbl.
Proof.
  intros u tbl. unfold mine. induction tbl as [| r rest IH]; simpl; [reflexivity |].
  destruct (String.eqb (gr_user_id r) u) eqn:E; simpl; rewrite ?E; simpl; now rewrite ?IH.
Qed.

Lemma filter_mine_batch : forall u gs, filter (mine u) (map (to_row u) gs) = map (to_row u) gs.
Proof.
  intros u gs. unfold mine. induction gs as [| g rest IH]; simpl; [reflexivity |].
  rewrite String.eqb_refl. now rewrite IH.
Qed.

Lemma filter_others_batch : forall u gs,
  filter (fun r => negb (mine u r)) (map (to_row u) gs) = [].
Proof.
  intros u gs. unfold mine. induction gs as [| g rest IH]; simpl; [reflexivity |].
  rewrite String.eqb_refl. exact IH.
Qed.

Lemma existsb_app_false {A} (f : A -> bool) l1 l2 :
  existsb f l2 = false -> existsb f (l1 ++ l2) = existsb f l1.
Proof. intros H. rewrite existsb_app, H. apply orb_false_r. Qed.

Lemma unique_keys_app : forall a b,
  (forall x y, In x a -> In y b -> same_key x y = false) ->
  unique_keys (a ++ b) = unique_keys a && unique_keys b.
Proof.
  induction a as [| x a IH]; intros b H; simpl; [reflexivity |].
  rewrite existsb_app_false.
  - rewrite IH by (intros x' y Hx Hy; apply H; [now right | exact Hy]).
    now rewrite andb_assoc.
  - apply not_true_is_false. intros Hex. apply existsb_exists in Hex as (y & Hy & Hs).
    rewrite (H x y (or_introl eq_refl) Hy) in Hs. discriminate.
Qed.

Lemma unique_keys_filter : forall f l, unique_keys l = true -> unique_keys (filter f l) = true.
Proof.
  intros f l. induction l as [| r rest IH]; simpl; [reflexivity |].
  intros H. apply andb_true_iff in H as [Hn Hu].
  destruct (f r); simpl; [| now apply IH].
  rewrite (IH Hu), andb_true_r. apply negb_true_iff. apply not_true_is_false.
  intros Hex. apply existsb_exists in Hex as (y & Hy & Hs). apply filter_In in Hy as [Hy _].
  assert (existsb (same_key r) rest = true) by (apply existsb_exists; eauto).
  rewrite H in Hn. discriminate.
Qed.

Lemma existsb_same_key_batch : forall u x g gs,
  gg_id g = Some x ->
  existsb (same_key (to_row u g)) (map (to_row u) gs) = true <-> In (Some x) (map gg_id gs).
Proof.
  intros u x g gs Hg. induction gs as [| g' rest IH]; simpl; [split; [discriminate | tauto] |].
  unfold same_key at 1. simpl. rewrite String.eqb_refl, Hg. simpl.
  destruct (gg_id g') as [y |] eqn:Ey.
  - rewrite orb_true_iff, IH, String.eqb_eq. split.
    + intros [-> | H]; auto.
    + intros [H | H]; [left; congruence | auto].
  - simpl. rewrite IH. split; [auto | intros [H | H]; [discriminate | exact H]].
Qed.

Lemma batch_ok_iff : forall u gs,
  forallb (fun r => match gr_group_id r with Some _ => true | None => false end)
    (map (to_row u) gs) && unique_keys (map (to_row u) gs) = true <->
  Forall (fun g => gg_id g <> None) gs /\ NoDup (map gg_id gs).
Proof.
  intros u gs. induction gs as [| g rest IH].
  - simpl. split; [split; constructor | reflexivity].
  - cbn [map forallb unique_keys].
    assert (Hid : gr_group_id (to_row u g) = gg_id g) by reflexivity.
    rewrite Hid. rewrite andb_true_iff in IH.
    destruct (gg_id g) as [x |] eqn:Ex.
    + assert (Hk := existsb_same_key_batch u x g rest Ex).
      rewrite !andb_true_iff, negb_true_iff. split.
      * intros [[_ Hf] [He Hu]]. destruct (proj1 IH (conj Hf Hu)) as [HF HD].
        split; [constructor; [congruence | exact HF] |].
        constructor; [| exact HD]. intros Hin. apply Hk in Hin. congruence.
      * intros [HF HD]. inversion HF as [| ? ? Hg HF']; subst.
        inversion HD as [| ? ? Hn HD']; subst.
        destruct (proj2 IH (conj HF' HD')) as [Hf Hu].
        split; [split; [reflexivity | exact Hf] |]. split; [| exact Hu].
        apply not_true_is_false. intros Hin. apply Hk in Hin. contradiction.
    + simpl. split; [discriminate |]. intros [HF _]. inversion HF. congruence.
Qed.

(** handleSyncGroups: a successful sync replaces the user's rows by one row
    per group the gateway listed, in its order, and leaves every other
    user's rows as they were. *)
Theorem sync_success_replaces_user_rows : forall u profile res tbl n tbl',
  handleSyncGroups u profile res tbl = (SyncOk n, tbl') ->
  exists gs,
    res = FOk gs /\
    n = length (match gs with Some l => l | None => [] end) /\
    filter (mine u) tbl' = map (to_row u) (match gs with Some l => l | None => [] end) /\
    filter (fun r => negb (mine u r)) tbl' = filter (fun r => negb (mine u r)) tbl.
Proof.
  intros u profile res tbl n tbl' H. unfold handleSyncGroups in H.
  destruct profile as [p |]; [| discriminate].
  destruct (negb (truthy (p_whapi_token p) && String.eqb (p_instance_status p) "connected"));
    [discriminate |].
  destruct res as [| c | gs]; try discriminate.
  exists gs. split; [reflexivity |].
  destruct (match gs with Some l => l | None => [] end) as [| g rest] eqn:Eg.
  - injection H as <- <-. split; [reflexivity |].
    split; [apply filter_mine_kept | apply filter_others_kept].
  - destruct (insert_ok _ _); [| discriminate]. injection H as <- <-.
    split; [reflexivity |].
    change (to_row u g :: map (to_row u) rest) with (map (to_row u) (g :: rest)).
    rewrite !filter_app, filter_mine_kept, filter_others_kept, filter_mine_batch,
      filter_others_batch, app_nil_r.
    split; reflexivity.
Qed.

Lemma sync_success_replaces_user_rows_witness :
  let r := handleSyncGroups "u1" (Some HandlerSamples.connected_profile)
             (FOk (Some [HandlerSamples.group "g1"; HandlerSamples.group "g2"]))
             HandlerSamples.groups_table in
  fst r = SyncOk 2 /\
  exists gs,
    FOk (Some [HandlerSamples.group "g1"; HandlerSamples.group "g2"]) = FOk gs /\
    2 = length (match gs with Some l => l | None => [] end) /\
    filter (mine "u1") (snd r) = map (to_row "u1") (match gs with Some l => l | None => [] end) /\
    filter (fun r => negb (mine "u1" r)) (snd r) =
      filter (fun r => negb (mine "u1" r)) HandlerSamples.groups_table.
Proof.
  split; [reflexivity |].
  apply (sync_success_replaces_user_rows "u1" (Some HandlerSamples.connected_profile)
           (FOk (Some [HandlerSamples.group "g1"; HandlerSamples.group "g2"]))
           HandlerSamples.groups_table 2).
  reflexivity.
Defined.

(** handleSyncGroups: when the user is not connected, or the gateway's
    group list fails or rejects, the table is left as it was. *)
Theorem sync_not_connected_or_fetch_failed_keeps_table : forall u profile res tbl,
  ~ (exists p, profile = Some p /\ truthy (p_whapi_token p) = true /\
               p_instance_status p = "connected") \/
  (forall gs, res <> FOk gs) ->
  snd (handleSyncGroups u profile res tbl) = tbl.
Proof.
  intros u profile res tbl H. unfold handleSyncGroups.
  destruct profile as [p |]; [| reflexivity].
  destruct (truthy (p_whapi_token p) && String.eqb (p_instance_status p) "connected") eqn:Ec;
    simpl; [| reflexivity].
  destruct H as [Hnc | Hres].
  - exfalso. apply Hnc. apply andb_true_iff in Ec as [Ht Hs].
    exists p. repeat split; auto. now apply String.eqb_eq.
  - destruct res as [| c | gs]; [reflexivity | reflexivity |]. exfalso. exact (Hres gs eq_refl).
Qed.

Lemma sync_not_connected_or_fetch_failed_keeps_table_witness :
  snd (handleSyncGroups "u1" (Some HandlerSamples.connected_profile) (FNotOk 500)
         HandlerSamples.groups_table) = HandlerSamples.groups_table.
Proof.
  apply sync_not_connected_or_fetch_failed_keeps_table. right. intros gs. discriminate.
Defined.

(** handleSyncGroups, connected user and a non-empty group list from the
    gateway (over a table that meets its UNIQUE constraint): the insert is
    refused, and the sync throws, exactly when a listed group has no id or
    two listed groups share an id; the user's old rows are then already
    deleted, so the user is left with no groups, while other users' rows
    are unchanged. *)
Theorem sync_insert_failure_wipes_user_rows : forall u p gs tbl,
  truthy (p_whapi_token p) = true -> p_instance_status p = "connected" ->
  gs <> [] -> unique_keys tbl = true ->
  (fst (handleSyncGroups u (Some p) (FOk (Some gs)) tbl) = SyncThrow "Failed to save groups" <->
   ~ (Forall (fun g => gg_id g <> None) gs /\ NoDup (map gg_id gs))) /\
  (fst (handleSyncGroups u (Some p) (FOk (Some gs)) tbl) = SyncThrow "Failed to save groups" ->
   filter (mine u) (snd (handleSyncGroups u (Some p) (FOk (Some gs)) tbl)) = [] /\
   filter (fun r => negb (mine u r)) (snd (handleSyncGroups u (Some p) (FOk (Some gs)) tbl)) =
   filter (fun r => negb (mine u r)) tbl).
Proof.
  intros u p gs tbl Ht Hs Hne Hu. unfold handleSyncGroups.
  rewrite Ht, Hs. simpl.
  destruct gs as [| g rest] eqn:Egs; [congruence |]. rewrite <- Egs.
  set (kept := filter (fun r => negb (String.eqb (gr_user_id r) u)) tbl).
  assert (Hins : insert_ok kept (map (to_row u) gs) = true <->
                 Forall (fun g => gg_id g <> None) gs /\ NoDup (map gg_id gs)).
  { unfold insert_ok. rewrite unique_keys_app.
    - unfold kept. rewrite (unique_keys_filter _ _ Hu), andb_true_l. apply batch_ok_iff.
    - intros x y Hx Hy. apply filter_In in Hx as [_ Hx].
      apply in_map_iff in Hy as (g' & <- & _).
      unfold same_key. simpl. apply negb_true_iff in Hx. now rewrite Hx. }
  destruct (insert_ok kept (map (to_row u) gs)) eqn:Eok; simpl.
  - split; [split; [discriminate | intros Hn; exfalso; apply Hn, Hins; reflexivity] |].
    discriminate.
  - split; [split; [intros _ Hok; apply Hins in Hok; discriminate | reflexivity] |].
    intros _. split; [apply filter_mine_kept | apply filter_others_kept].
Qed.

Lemma sync_insert_failure_wipes_user_rows_witness :
  fst (handleSyncGroups "u1" (Some HandlerSamples.connected_profile)
         (FOk (Some [HandlerSamples.group "g1"; HandlerSamples.group "g1"]))
         HandlerSamples.groups_table) = SyncThrow "Failed to save groups" /\
  filter (mine "u1") (snd (handleSyncGroups "u1" (Some HandlerSamples.connected_profile)
         (FOk (Some [HandlerSamples.group "g1"; HandlerSamples.group "g1"]))
         HandlerSamples.groups_table)) = [].
Proof.
  destruct (sync_insert_failure_wipes_user_rows "u1" HandlerSamples.connected_profile
              [HandlerSamples.group "g1"; HandlerSamples.group "g1"] HandlerSamples.groups_table
              eq_refl eq_refl ltac:(discriminate) eq_refl) as [Hiff Hwipe].
  assert (Hf : fst (handleSyncGroups "u1" (Some HandlerSamples.connected_profile)
         (FOk (Some [HandlerSamples.group "g1"; HandlerSamples.group "g1"]))
         HandlerSamples.groups_table) = SyncThrow "Failed to save groups").
  { apply Hiff. intros [_ Hd]. inversion Hd; subst. apply H1. now left. }
  split; [exact Hf | exact (proj1 (Hwipe Hf))].
Defined.

(** handleSyncGroups: the stored name of a group is never empty; it falls
    back from [name] to [subject] to 'Unknown Group'. *)
Theorem sync_group_name_nonempty : forall u g, gr_name (to_row u g) <> "".
Proof.
  intros u g. unfold to_row; simpl.
  destruct (Connect.js_or (gg_name g) (gg_subject g)) as [n |]; [| discriminate].
  unfold truthy. destruct (String.eqb n "") eqn:E; simpl; [discriminate |].
  apply String.eqb_neq, E.
Qed.

End SyncGroupsFacts.

Module GetMessagesFacts.
Import GetMessages.

Lemma firstn_add {A} : forall a b (l : list A),
  firstn (a + b) l = firstn a l ++ firstn b (skipn a l).
Proof.
  induction a as [| a IH]; intros b l; simpl; [reflexivity |].
  destruct l as [| x l]; simpl; [now rewrite !firstn_nil |]. now rewrite IH.
Qed.

Lemma pages_concat {A} : forall l (xs : list A) n m,
  concat (map (fun k => range (k * l) l xs) (seq m n)) = firstn (n * l) (skipn (m * l) xs).
Proof.
  intros l xs n. induction n as [| n IH]; intros m; [reflexivity |].
  cbn [seq map concat]. rewrite IH. unfold range.
  assert (E : skipn (S m * l) xs = skipn l (skipn (m * l) xs))
    by (rewrite skipn_skipn; f_equal; try lia).
  rewrite E, <- firstn_add. f_equal; try lia.
Qed.

(** handleGetMessages: paging with a fixed [limit] and offsets
    [0, limit, 2 * limit, ...] returns every row of the listing once, in
    order, with nothing skipped or repeated, once enough pages are read;
    the [type] decides which listing, [scheduled] when it is absent. *)
Theorem get_messages_pages_cover_listing : forall {A} ty l n (sched hist : list A),
  length sched <= n * l -> length hist <= n * l ->
  concat (map (fun k => snd (handleGetMessages
                               {| q_type := ty; q_limit := Some l; q_offset := Some (k * l) |}
                               sched hist)) (seq 0 n)) =
  match fst (handleGetMessages {| q_type := ty; q_limit := Some l; q_offset := None |}
               sched hist) with
  | KScheduled => sched
  | KHistory => hist
  end.
Proof.
  intros A ty l n sched hist Hs Hh. unfold handleGetMessages; simpl.
  destruct (String.eqb (match ty with Some t => t | None => "scheduled" end) "scheduled");
    simpl; rewrite (pages_concat l _ n 0); simpl; now apply firstn_all2.
Qed.

Lemma get_messages_pages_cover_listing_witness :
  concat (map (fun k => snd (handleGetMessages
                               {| q_type := None; q_limit := Some 2; q_offset := Some (k * 2) |}
                               [1; 2; 3; 4; 5] [6])) (seq 0 3)) = [1; 2; 3; 4; 5].
Proof.
  exact (get_messages_pages_cover_listing None 2 3 [1; 2; 3; 4; 5] [6]
           ltac:(simpl; lia) ltac:(simpl; lia)).
Defined.

End GetMessagesFacts.

Module DisconnectMoreFacts.
Import Effects Disconnect.


End DisconnectMoreFacts.

Module RouterMoreFacts.
Import Router.

(** whapi-simple entry: a user without a profile row is never turned away
    by the trial check: a trial row is inserted and the action's handler
    runs. *)
Theorem route_new_user_not_gated : forall action now,
  route None action now = ([SelectProfile; InsertProfile], Run (handler_of action)).
Proof.
  intros action now. unfold route. simpl.
  destruct (negb (String.eqb action "connect") && negb (String.eqb action "status") &&
            negb (String.eqb action "disconnect")); reflexivity.
Qed.

(** whapi-simple entry: an action outside the seven known ones runs the
    connect handler, yet unlike [connect] it is refused with 403 when the
    trial has expired and the plan is unpaid. *)
Theorem route_unknown_action_gated : forall p a now,
  handler_of a = HConnect -> a <> "connect" -> StatusHandler.trial_blocked p now = true ->
  snd (route (Some p) a now) = Reject 403 "Trial expired" /\
  snd (route (Some p) "connect" now) = Run HConnect.
Proof.
  intros p a now Hh Hc Hb. unfold handler_of in Hh.
  destruct (String.eqb a "status") eqn:E1; [discriminate |].
  destruct (String.eqb a "disconnect") eqn:E2; [discriminate |].
  split; [| reflexivity].
  unfold route. apply String.eqb_neq in Hc. rewrite Hc, E1, E2. simpl.
  unfold StatusHandler.trial_blocked in Hb. now rewrite Hb.
Qed.

Lemma route_unknown_action_gated_witness :
  snd (route (Some ConnSamples.expired_trial) "foo" 100) = Reject 403 "Trial expired" /\
  snd (route (Some ConnSamples.expired_trial) "connect" 100) = Run HConnect.
Proof.
  apply route_unknown_action_gated; [reflexivity | discriminate | reflexivity].
Defined.

End RouterMoreFacts.

Module ConnectMoreFacts.
Import Effects Connect ConnectFacts ConnSamples.

Lemma bind_ret_inv {A B} (m : M A) (f : A -> M B) s x s' :
  bind m f s = (Ret x, s') -> exists a s1, m s = (Ret a, s1) /\ f a s1 = (Ret x, s').
Proof. unfold bind. destruct (m s) as [[a | e] s1]; [eauto | discriminate]. Qed.

Lemma fetch_ret {A} ep (r : Fetch A) s x s' :
  fetch ep r s = (Ret x, s') ->
  st_profile s' = st_profile s /\ (forall a, x = Ok a -> r = FOk a).
Proof.
  unfold fetch. destruct r as [| c | a]; intros H; inversion H; subst; simpl;
    (split; [reflexivity | intros a' Ha; congruence]).
Qed.

Lemma with_data_prefix_ok : forall code, String.prefix "data:image/" (with_data_prefix code) = true.
Proof.
  intros code. unfold with_data_prefix.
  destruct (String.prefix "data:image/" code) eqn:E; [exact E | reflexivity].
Qed.

Lemma fetch_qr_ret : forall r s o s',
  fetch_qr r s = (Ret o, s') ->
  match o with
  | None => st_profile s' = st_profile s
  | Some resp => exists c, resp = QrCode c /\ String.prefix "data:image/" c = true /\
                 forall p, st_profile s' = Some p -> p_instance_status p = "unauthorized"
  end.
Proof.
  intros r [prof calls sleeps] o s'. unfold fetch_qr, bind, fetch.
  destruct r as [| c | body]; simpl; intros H; inversion H; subst; try reflexivity.
  destruct (qr_of body) as [code |]; simpl in H; inversion H; subst; [| reflexivity].
  exists (with_data_prefix code). split; [reflexivity |]. split; [apply with_data_prefix_ok |].
  intros p Hp. simpl in Hp. destruct prof; simpl in Hp; inversion Hp; reflexivity.
Qed.

Lemma qr_loop_ret : forall gw n s o s',
  qr_loop gw n s = (Ret o, s') ->
  match o with
  | None => st_profile s' = st_profile s
  | Some resp => exists c, resp = QrCode c /\ String.prefix "data:image/" c = true /\
                 forall p, st_profile s' = Some p -> p_instance_status p = "unauthorized"
  end.
Proof.
  intros gw n. induction n as [| n IH]; intros s o s' H.
  - inversion H; subst. reflexivity.
  - cbn [qr_loop] in H.
    apply bind_ret_inv in H as (h & s1 & Hh & H). apply fetch_ret in Hh as [Hp1 _].
    apply bind_ret_inv in H as (r & s2 & Hr & H).
    assert (Hr' : match r with
                  | None => st_profile s2 = st_profile s1
                  | Some resp => exists c, resp = QrCode c /\
                      String.prefix "data:image/" c = true /\
                      forall p, st_profile s2 = Some p -> p_instance_status p = "unauthorized"
                  end).
    { destruct h as [c | status].
      - inversion Hr; subst. reflexivity.
      - destruct (needs_qr status).
        + exact (fetch_qr_ret _ _ _ _ Hr).
        + inversion Hr; subst. reflexivity. }
    destruct r as [resp |].
    + inversion H; subst. exact Hr'.
    + apply bind_ret_inv in H as (u & s3 & Hs & H).
      unfold sleep in Hs. inversion Hs; subst.
      specialize (IH _ _ _ H). destruct o as [resp |]; [exact IH |].
      rewrite IH. simpl. congruence.
Qed.

Lemma check_existing_ret : forall gw prof s o s',
  check_existing gw prof s = (Ret o, s') ->
  match o with
  | None => st_profile s' = st_profile s
  | Some resp => resp = AlreadyConnected \/
                 exists c, resp = QrCode c /\ String.prefix "data:image/" c = true /\
                 forall p, st_profile s' = Some p -> p_instance_status p = "unauthorized"
  end.
Proof.
  intros gw [p |] s o s' H; simpl in H; [| inversion H; subst; reflexivity].
  destruct (truthy (p_whapi_token p)); [| inversion H; subst; reflexivity].
  apply bind_ret_inv in H as (h & s1 & Hh & H). apply fetch_ret in Hh as [Hp1 _].
  destruct h as [c | status]; [inversion H; subst; exact Hp1 |].
  destruct (String.eqb status "authenticated" || String.eqb status "ready").
  - apply bind_ret_inv in H as (u & s2 & _ & H). inversion H; subst. now left.
  - destruct (needs_qr status); [| inversion H; subst; exact Hp1].
    apply fetch_qr_ret in H. destruct o as [resp |]; [right; exact H | congruence].
Qed.

Lemma cleanup_old_ret : forall gw prof s x s',
  cleanup_old gw prof s = (Ret x, s') -> st_profile s' = st_profile s.
Proof.
  intros gw [p |] [pr calls sleeps] x s' H; unfold cleanup_old in H;
    [| inversion H; reflexivity].
  destruct (truthy (p_instance_id p)); [| inversion H; reflexivity].
  unfold catch, bind, fetch, ret in H. destruct (cg_delete gw); inversion H; reflexivity.
Qed.

Lemma resolve_project_ret : forall gw env s x s',
  resolve_project gw env s = (Ret x, s') -> st_profile s' = st_profile s.
Proof.
  intros gw env s x s' H. unfold resolve_project in H.
  destruct (truthy env); [inversion H; reflexivity |].
  apply bind_ret_inv in H as (r & s1 & Hr & H). apply fetch_ret in Hr as [Hp _].
  destruct r as [c | [| first rest]]; inversion H; subst; exact Hp.
Qed.

Lemma finish_new_channel_ret : forall gw cid tok s resp s',
  finish_new_channel gw cid tok s = (Ret resp, s') ->
  (forall c, resp = QrCode c -> String.prefix "data:image/" c = true /\
             forall p, st_profile s' = Some p -> p_instance_status p = "unauthorized") /\
  (forall x, resp = InstanceCreated x ->
     x = cid /\
     st_profile s' = option_map (fun p =>
       {| p_instance_id := Some cid; p_whapi_token := Some tok;
          p_instance_status := "initializing"; p_payment_plan := p_payment_plan p;
          p_trial_expires_at := p_trial_expires_at p |}) (st_profile s)) /\
  resp <> AlreadyConnected.
Proof.
  intros gw cid tok s resp s' H. unfold finish_new_channel in H.
  apply bind_ret_inv in H as (u1 & s1 & H1 & H).
  assert (Hp1 : st_profile s1 = st_profile s).
  { destruct s as [pr calls sleeps]. unfold catch, bind, fetch, ret in H1.
    destruct (cg_settings gw); inversion H1; reflexivity. }
  apply bind_ret_inv in H as (u2 & s2 & H2 & H). unfold update_profile in H2.
  inversion H2; subst. clear H2.
  apply bind_ret_inv in H as (u3 & s3 & H3 & H). unfold sleep in H3. inversion H3; subst.
  clear H3.
  apply bind_ret_inv in H as (o & s4 & H4 & H). apply qr_loop_ret in H4.
  destruct o as [r |].
  - inversion H; subst. destruct H4 as (c & -> & Hpre & Hun).
    split; [intros c' Hc; inversion Hc; subst; split; assumption |].
    split; [intros x Hx; discriminate | discriminate].
  - inversion H; subst. split; [intros c Hc; discriminate |].
    split; [| discriminate]. intros x Hx. inversion Hx; subst. split; [reflexivity |].
    rewrite H4. simpl. rewrite Hp1. reflexivity.
Qed.

(** handleConnect: when the stored token's health check answers
    [authenticated] or [ready], the call makes exactly that one gateway
    request, creates and deletes nothing, sets the status to [connected]
    and answers [already_connected]. *)
Theorem connect_already_connected_single_call : forall gw env s p st,
  st_profile s = Some p -> truthy (p_whapi_token p) = true ->
  cg_health_existing gw = FOk st -> StatusMap.handle_status_connected st = true ->
  handleConnect gw env s =
    (Ret AlreadyConnected,
     {| st_profile := Some (set_status "connected" p);
        st_calls := st_calls s ++ ["GET gate/health"]; st_sleeps := st_sleeps s |}).
Proof.
  intros gw env [pr calls sleeps] p st Hp Ht Hh Hc. simpl in Hp. subst pr.
  unfold handleConnect.
  erewrite bind_ret by reflexivity.
  erewrite bind_ret.
  2: { cbn [st_profile]. unfold check_existing. rewrite Ht. unfold bind at 1, fetch. rewrite Hh.
       unfold StatusMap.handle_status_connected in Hc. simpl. rewrite Hc. reflexivity. }
  reflexivity.
Qed.

Lemma connect_already_connected_single_call_witness :
  handleConnect {| cg_health_existing := FOk "ready"; cg_qr_existing := FNotOk 401;
                   cg_delete := FOk tt; cg_projects := FOk ["proj"];
                   cg_create := FOk ("ch2", "tok2"); cg_settings := FOk tt;
                   cg_health := fun _ => FOk "launching"; cg_qr := fun _ => FOk no_qr |}
    None (st_of stale_profile) =
    (Ret AlreadyConnected,
     {| st_profile := Some (set_status "connected" stale_profile);
        st_calls := [] ++ ["GET gate/health"]; st_sleeps := [] |}).
Proof.
  exact (connect_already_connected_single_call
           {| cg_health_existing := FOk "ready"; cg_qr_existing := FNotOk 401;
              cg_delete := FOk tt; cg_projects := FOk ["proj"];
              cg_create := FOk ("ch2", "tok2"); cg_settings := FOk tt;
              cg_health := fun _ => FOk "launching"; cg_qr := fun _ => FOk no_qr |}
           None (st_of stale_profile) stale_profile "ready" eq_refl eq_refl eq_refl eq_refl).
Defined.

(** handleConnect: every QR code it returns starts with [data:image/], and
    the row's status is then [unauthorized]. *)
Theorem connect_qr_is_data_url : forall gw env s c s',
  handleConnect gw env s = (Ret (QrCode c), s') ->
  String.prefix "data:image/" c = true /\
  (forall p, st_profile s' = Some p -> p_instance_status p = "unauthorized").
Proof.
  intros gw env s c s' H. unfold handleConnect in H.
  apply bind_ret_inv in H as (prof & s1 & H1 & H). unfold get_profile in H1.
  inversion H1; subst. clear H1.
  apply bind_ret_inv in H as (ex & s2 & H2 & H). apply check_existing_ret in H2.
  destruct ex as [resp |].
  - inversion H; subst. destruct H2 as [Ha | (c' & Hc & Hpre & Hun)]; [discriminate |].
    inversion Hc; subst. split; assumption.
  - apply bind_ret_inv in H as (u & s3 & _ & H).
    apply bind_ret_inv in H as (pid & s4 & _ & H).
    destruct (negb (truthy pid)); [discriminate |].
    apply bind_ret_inv in H as (cr & s5 & _ & H).
    destruct cr as [code | [cid tok]]; [discriminate |].
    apply finish_new_channel_ret in H as [Hq _]. exact (Hq c eq_refl).
Qed.

Lemma connect_qr_is_data_url_witness :
  String.prefix "data:image/" "data:image/png;base64,iVBOR" = true /\
  (forall p, st_profile (snd (handleConnect gw_qr_third None (st_of fresh_profile))) = Some p ->
             p_instance_status p = "unauthorized").
Proof.
  apply (connect_qr_is_data_url gw_qr_third None (st_of fresh_profile)
           "data:image/png;base64,iVBOR" (snd (handleConnect gw_qr_third None (st_of fresh_profile)))).
  vm_compute. reflexivity.
Defined.

(** handleConnect: when it answers "instance created" for a channel, that
    channel is the one the gateway created, and the row holds its id and
    token with status [initializing] (plan and trial untouched). *)
Theorem connect_instance_created_stored : forall gw env s cid s',
  handleConnect gw env s = (Ret (InstanceCreated cid), s') ->
  exists tok, cg_create gw = FOk (cid, tok) /\
    st_profile s' = option_map (fun p =>
       {| p_instance_id := Some cid; p_whapi_token := Some tok;
          p_instance_status := "initializing"; p_payment_plan := p_payment_plan p;
          p_trial_expires_at := p_trial_expires_at p |}) (st_profile s).
Proof.
  intros gw env s cid s' H. unfold handleConnect in H.
  apply bind_ret_inv in H as (prof & s1 & H1 & H). unfold get_profile in H1.
  inversion H1; subst. clear H1.
  apply bind_ret_inv in H as (ex & s2 & H2 & H). apply check_existing_ret in H2.
  destruct ex as [resp |].
  - inversion H; subst. destruct H2 as [Ha | (c' & Hc & _)]; discriminate.
  - apply bind_ret_inv in H as (u & s3 & H3 & H). apply cleanup_old_ret in H3.
    apply bind_ret_inv in H as (pid & s4 & H4 & H). apply resolve_project_ret in H4.
    destruct (negb (truthy pid)); [discriminate |].
    apply bind_ret_inv in H as (cr & s5 & H5 & H). apply fetch_ret in H5 as [Hp5 Hok].
    destruct cr as [code | [cid' tok]]; [discriminate |].
    apply finish_new_channel_ret in H as (_ & Hc & _).
    destruct (Hc cid eq_refl) as [-> Hprof].
    exists tok. split; [exact (Hok _ eq_refl) |].
    rewrite Hprof, Hp5, H4, H3, H2. reflexivity.
Qed.

Lemma connect_instance_created_stored_witness :
  exists tok, cg_create gw_never_ready = FOk ("ch1", tok) /\
    st_profile (snd (handleConnect gw_never_ready None (st_of fresh_profile))) =
    option_map (fun p =>
       {| p_instance_id := Some "ch1"; p_whapi_token := Some tok;
          p_instance_status := "initializing"; p_payment_plan := p_payment_plan p;
          p_trial_expires_at := p_trial_expires_at p |}) (st_profile (st_of fresh_profile)).
Proof.
  apply (connect_instance_created_stored gw_never_ready None (st_of fresh_profile) "ch1"
           (snd (handleConnect gw_never_ready None (st_of fresh_profile)))).
  vm_compute. reflexivity.
Defined.

End ConnectMoreFacts.

Module CheckStatusMoreFacts.
Import Effects CheckStatus.

Ltac close_cs :=
  intros H; inversion H; subst; simpl;
  repeat split; intros; try discriminate; try reflexivity;
  eexists; split; reflexivity.

(** whapi-check-status: when the answer asks for a new instance, the row
    existed and has been reset; otherwise the row's [instance_id] and
    [whapi_token] are untouched. When the answer says connected, the row
    existed and its status is now [connected]. *)
Theorem check_status_row_matches_answer : forall partner verify status s r s',
  check_status partner verify status s = (Ret r, s') ->
  (cr_requiresNewInstance r = true ->
     exists p, st_profile s = Some p /\ st_profile s' = Some (reset_connection p)) /\
  (cr_requiresNewInstance r = false ->
     option_map p_instance_id (st_profile s') = option_map p_instance_id (st_profile s) /\
     option_map p_whapi_token (st_profile s') = option_map p_whapi_token (st_profile s)) /\
  (cr_connected r = true ->
     exists p, st_profile s = Some p /\ st_profile s' = Some (set_status "connected" p)).
Proof.
  intros partner verify status [prof calls sleeps] r s'.
  unfold check_status, check_status_body, catch, bind, get_profile, fetch, update_profile, ret.
  destruct (String.eqb partner ""); simpl; [close_cs |].
  destruct prof as [[pid ptok pst pplan ptrial] |]; simpl; [| close_cs].
  destruct pid as [id |]; simpl; [| close_cs].
  destruct (String.eqb id ""); simpl; [close_cs |].
  destruct verify as [| code | insts]; simpl; [close_cs | |];
    [| destruct (negb (existsb (inst_matches id) insts)); simpl; [close_cs |]];
    (destruct status as [| code' | st]; simpl;
     [close_cs
     | destruct (Nat.eqb code' 404); simpl; close_cs
     | destruct (StatusMap.check_status_is_connected st) eqn:Ec; simpl; [| close_cs];
       destruct (String.eqb pst "connected") eqn:Es; simpl; [| close_cs];
       apply String.eqb_eq in Es; subst pst; close_cs]).
Qed.

Lemma check_status_row_matches_answer_witness :
  let r := check_status "partner" (FOk [{| inst_instanceId := Some "ch-old"; inst_id := None |}])
             (FOk "active") (ConnSamples.st_of ConnSamples.stale_profile) in
  cr_connected (match fst r with Ret a => a | Throw _ => resp_error "" end) = true /\
  exists p, st_profile (ConnSamples.st_of ConnSamples.stale_profile) = Some p /\
            st_profile (snd r) = Some (set_status "connected" p).
Proof.
  split; [reflexivity |].
  refine (proj2 (proj2 (check_status_row_matches_answer "partner"
    (FOk [{| inst_instanceId := Some "ch-old"; inst_id := None |}]) (FOk "active")
    (ConnSamples.st_of ConnSamples.stale_profile)
    (match fst (check_status "partner"
                  (FOk [{| inst_instanceId := Some "ch-old"; inst_id := None |}])
                  (FOk "active") (ConnSamples.st_of ConnSamples.stale_profile)) with
     | Ret a => a | Throw _ => resp_error "" end)
    (snd (check_status "partner"
            (FOk [{| inst_instanceId := Some "ch-old"; inst_id := None |}])
            (FOk "active") (ConnSamples.st_of ConnSamples.stale_profile))) _)) _).
  - vm_compute. reflexivity.
  - reflexivity.
Defined.

End CheckStatusMoreFacts.

Module DispatchMoreFacts.
Import Dispatch DispatchSamples.

Lemma apply_write_in : forall tbl i st r,
  In r (apply_event tbl (WriteStatus i st)) ->
  (sm_id r = i /\ sm_status r = st) \/ (sm_id r <> i /\ In r tbl).
Proof.
  intros tbl i st r H. simpl in H. apply in_map_iff in H as (r0 & Hr & Hin).
  destruct (Nat.eqb_spec (sm_id r0) i) as [E | E]; subst; simpl; [left; auto | right; auto].
Qed.

Lemma fold_writes_in : forall evs tbl r i,
  (forall j st, In (WriteStatus j st) evs -> j = i) ->
  In r (fold_left apply_event evs tbl) -> In r tbl \/ sm_id r = i.
Proof.
  induction evs as [| e evs IH]; intros tbl r i Hw H; simpl in H; [now left |].
  destruct (IH _ r i (fun j st Hj => Hw j st (or_intror Hj)) H) as [Hin | Hid]; [| now right].
  destruct e as [j st | id g | h]; simpl in Hin; try (now left).
  apply apply_write_in in Hin as [[Hid _] | [_ Hin]]; [| now left].
  right. rewrite Hid. exact (Hw j st (or_introl eq_refl)).
Qed.

Lemma send_loop_no_write : forall gw id gs sc fc j st,
  ~ In (WriteStatus j st) (fst (fst (send_loop gw id gs sc fc))).
Proof.
  intros gw id gs sc fc j st Hin.
  pose proof (DispatchFacts.send_loop_shape gw id gs sc fc) as Hs.
  destruct (send_loop gw id gs sc fc) as [[evs sc'] fc']. destruct Hs as (_ & Hw & _).
  simpl in Hin. rewrite forallb_forall in Hw. specialize (Hw _ Hin). discriminate.
Qed.

Lemma process_message_split : forall gw m,
  exists evs0 sf,
    process_message gw m = evs0 ++ [WriteStatus (sm_id m) sf] /\
    (sf = Sent \/ sf = Partial \/ sf = Failed) /\
    (forall j st, In (WriteStatus j st) evs0 -> j = sm_id m).
Proof.
  intros gw m. unfold process_message.
  destruct (negb (profile_ready (sm_profile m))).
  - exists [WriteStatus (sm_id m) Sending], Failed. split; [reflexivity |].
    split; [auto |]. intros j st [H | []]. now inversion H.
  - pose proof (send_loop_no_write gw (sm_id m) (sm_group_ids m) 0 0) as Hnw.
    destruct (send_loop gw (sm_id m) (sm_group_ids m) 0 0) as [[evs sc] fc]. simpl in Hnw.
    exists (WriteStatus (sm_id m) Sending :: evs), (final_status sc fc).
    split; [reflexivity |]. split.
    + unfold final_status. destruct (Nat.ltb 0 sc); [destruct (Nat.ltb 0 fc) |]; auto.
    + intros j st [H | H]; [now inversion H | exfalso; exact (Hnw j st H)].
Qed.

Lemma process_all_final : forall gw sel db done,
  (forall m r, In m done -> In r (db_sched db) -> sm_id r = sm_id m ->
               sm_status r = Sent \/ sm_status r = Partial \/ sm_status r = Failed) ->
  forall m r, In m (done ++ sel) -> In r (db_sched (process_all gw sel db)) ->
              sm_id r = sm_id m ->
              sm_status r = Sent \/ sm_status r = Partial \/ sm_status r = Failed.
Proof.
  intros gw sel. induction sel as [| a sel IH]; intros db done Hinv.
  - rewrite app_nil_r. exact Hinv.
  - intros m r Hm Hr Hid. simpl in Hr.
    refine (IH _ (done ++ [a]) _ m r _ Hr Hid); [| rewrite <- app_assoc; exact Hm].
    clear m r Hm Hr Hid.
    intros m r Hm Hr Hid.
    destruct (process_message_split gw a) as (evs0 & sf & He & Hsf & Hw).
    unfold run_events in Hr. cbn [db_sched] in Hr. rewrite He, fold_left_app in Hr. cbn [fold_left] in Hr.
    apply apply_write_in in Hr as [[Hra Hst] | [Hra Hin]].
    + rewrite Hst. exact Hsf.
    + destruct (fold_writes_in _ _ _ _ Hw Hin) as [Hin0 | Hbad]; [| contradiction].
      apply in_app_iff in Hm as [Hm | [<- | []]]; [| contradiction].
      exact (Hinv m r Hm Hin0 Hid).
Qed.

Lemma apply_event_kept : forall sel tbl0 tbl e,
  (forall j st, e = WriteStatus j st -> existsb (fun m => Nat.eqb (sm_id m) j) sel = true) ->
  Forall2 (kept_row sel) tbl0 tbl -> Forall2 (kept_row sel) tbl0 (apply_event tbl e).
Proof.
  intros sel tbl0 tbl e He H. destruct e as [j st | id g | h]; simpl; try exact H.
  specialize (He j st eq_refl).
  induction H as [| r0 r1 l0 l1 Hr Hl IH]; simpl; constructor; [| exact IH].
  destruct (Nat.eqb_spec (sm_id r1) j) as [E | E]; [| exact Hr].
  destruct Hr as (H1 & H2 & H3 & H4 & H5 & H6).
  unfold kept_row; simpl. repeat split; try assumption.
  intros Hn. subst j. rewrite H1, Hn in He. discriminate.
Qed.

Lemma fold_apply_kept : forall sel tbl0 evs tbl,
  (forall j st, In (WriteStatus j st) evs -> existsb (fun m => Nat.eqb (sm_id m) j) sel = true) ->
  Forall2 (kept_row sel) tbl0 tbl -> Forall2 (kept_row sel) tbl0 (fold_left apply_event evs tbl).
Proof.
  intros sel tbl0 evs. induction evs as [| e evs IH]; intros tbl Hall H; simpl; [exact H |].
  apply IH; [intros j st Hj; apply (Hall j st); now right |].
  apply apply_event_kept; [| exact H].
  intros j st ->. apply (Hall j st). now left.
Qed.

Lemma process_all_kept : forall gw sel tbl0 sel' db,
  (forall m, In m sel' -> In m sel) ->
  Forall2 (kept_row sel) tbl0 (db_sched db) ->
  Forall2 (kept_row sel) tbl0 (db_sched (process_all gw sel' db)).
Proof.
  intros gw sel tbl0 sel'. induction sel' as [| a sel' IH]; intros db Hsub H; simpl; [exact H |].
  apply IH; [intros m Hm; apply Hsub; now right |].
  unfold run_events; cbn [db_sched].
  destruct (process_message_split gw a) as (evs0 & sf & He & _ & Hw).
  apply fold_apply_kept; [| exact H].
  intros j st Hj. rewrite He in Hj. apply in_app_iff in Hj as [Hj | [Hj | []]].
  - rewrite (Hw j st Hj). apply existsb_exists. exists a.
    split; [apply Hsub; now left | apply Nat.eqb_refl].
  - inversion Hj; subst. apply existsb_exists. exists a.
    split; [apply Hsub; now left | apply Nat.eqb_refl].
Qed.

Lemma Forall2_in_left {A B} (R : A -> B -> Prop) l1 l2 x :
  Forall2 R l1 l2 -> In x l1 -> exists y, In y l2 /\ R x y.
Proof.
  intros H. induction H as [| a b l1 l2 Hab Hl IH]; intros Hx; [contradiction |].
  destruct Hx as [<- | Hx]; [exists b; split; [now left | exact Hab] |].
  destruct (IH Hx) as (y & Hy & Hr). exists y. split; [now right | exact Hr].
Qed.

Lemma kept_row_refl : forall sel tbl, Forall2 (kept_row sel) tbl tbl.
Proof.
  intros sel tbl. induction tbl as [| r tbl IH]; constructor; [| exact IH].
  unfold kept_row. repeat split; auto.
Qed.


(** Scheduler run: every broadcast the run selected ends in a final status
    ([sent], [partial] or [failed]), never left [pending] or [sending]:
    its row is still there and every row with its id carries such a
    status. *)
Theorem run_pass_selected_end_final : forall gw now db m,
  In m (select_due now (db_sched db)) ->
  (exists r, In r (db_sched (run_pass gw now db)) /\ sm_id r = sm_id m) /\
  (forall r, In r (db_sched (run_pass gw now db)) -> sm_id r = sm_id m ->
     sm_status r = Sent \/ sm_status r = Partial \/ sm_status r = Failed).
Proof.
  intros gw now db m Hm. split.
  - assert (Hin : In m (db_sched db)).
    { unfold select_due in Hm.
      assert (Hf : In m (filter (is_due now) (db_sched db))).
      { rewrite <- (firstn_skipn 10 (filter (is_due now) (db_sched db))).
        apply in_or_app. now left. }
      apply filter_In in Hf. tauto. }
    pose proof (process_all_kept gw (select_due now (db_sched db)) (db_sched db)
                  (select_due now (db_sched db)) db (fun x H => H)
                  (kept_row_refl _ _)) as HF.
    fold (run_pass gw now db) in HF.
    destruct (Forall2_in_left _ _ _ _ HF Hin) as (r' & Hr' & (Hid & _)).
    exists r'. split; [exact Hr' | exact Hid].
  - intros r Hr Hid. unfold run_pass in Hr.
    exact (process_all_final gw _ db [] (fun m0 r0 H => match H with end) m r Hm Hr Hid).
Qed.

Lemma run_pass_selected_end_final_witness :
  In (mk 1 ["g1"] 0) (select_due 5 (db_sched db_one)) /\
  (exists r, In r (db_sched (run_pass gw_second_throws 5 db_one)) /\ sm_id r = 1) /\
  (forall r, In r (db_sched (run_pass gw_second_throws 5 db_one)) -> sm_id r = 1 ->
     sm_status r = Sent \/ sm_status r = Partial \/ sm_status r = Failed).
Proof.
  assert (Hm : In (mk 1 ["g1"] 0) (select_due 5 (db_sched db_one))) by (left; reflexivity).
  split; [exact Hm |].
  exact (run_pass_selected_end_final gw_second_throws 5 db_one (mk 1 ["g1"] 0) Hm).
Defined.

Lemma send_loop_history : forall gw id gs sc fc h,
  In (InsertHistory h) (fst (fst (send_loop gw id gs sc fc))) ->
  hr_scheduled_message_id h = id /\ In (hr_group_id h) gs.
Proof.
  intros gw id gs. induction gs as [| g rest IH]; intros sc fc h H; simpl in H; [contradiction |].
  destruct (gw id g) as [| err | mid]; simpl in H.
  - specialize (IH sc (S fc) h).
    destruct (send_loop gw id rest sc (S fc)) as [[evs sc'] fc']. simpl in H, IH.
    destruct H as [H | H]; [discriminate |].
    destruct (IH H). split; [assumption | now right].
  - specialize (IH sc (S fc) h).
    destruct (send_loop gw id rest sc (S fc)) as [[evs sc'] fc']. simpl in H, IH.
    destruct H as [H | [H | H]]; [discriminate | inversion H; subst; simpl; auto |].
    destruct (IH H). split; [assumption | now right].
  - specialize (IH (S sc) fc h).
    destruct (send_loop gw id rest (S sc) fc) as [[evs sc'] fc']. simpl in H, IH.
    destruct H as [H | [H | H]]; [discriminate | inversion H; subst; simpl; auto |].
    destruct (IH H). split; [assumption | now right].
Qed.

(** Scheduler run: every history row it writes belongs to a broadcast the
    run selected, whose joined profile was connected, and names one of that
    broadcast's groups. *)
Theorem run_pass_history_rows_selected : forall gw now db h,
  In h (history_rows (db_log (run_pass gw now db))) ->
  In h (history_rows (db_log db)) \/
  exists m, In m (select_due now (db_sched db)) /\ profile_ready (sm_profile m) = true /\
            hr_scheduled_message_id h = sm_id m /\ In (hr_group_id h) (sm_group_ids m).
Proof.
  intros gw now db h H. unfold run_pass in H. rewrite DispatchFacts.process_all_log in H.
  unfold history_rows in H. rewrite flat_map_app, in_app_iff in H.
  destruct H as [H | H]; [now left | right].
  apply in_flat_map in H as (e & He & Hh).
  destruct e as [j st | id g | h']; simpl in Hh; try contradiction.
  destruct Hh as [-> | []].
  apply in_flat_map in He as (m & Hm & He). exists m. split; [exact Hm |].
  unfold process_message in He. destruct He as [He | He]; [discriminate |].
  destruct (profile_ready (sm_profile m)) eqn:Er; simpl in He.
  - destruct (send_loop gw (sm_id m) (sm_group_ids m) 0 0) as [[evs sc] fc] eqn:E.
    apply in_app_iff in He as [He | [He | []]]; [| discriminate].
    assert (Hr := send_loop_history gw (sm_id m) (sm_group_ids m) 0 0 h).
    rewrite E in Hr. destruct (Hr He) as [H1 H2]. auto.
  - destruct He as [He | []]. discriminate.
Qed.

Lemma run_pass_history_rows_selected_witness :
  let h := {| hr_scheduled_message_id := 1; hr_group_id := "g1"; hr_status := HSent;
              hr_detail := "wamid" |} in
  In h (history_rows (db_log (run_pass gw_all_ok 5 db_one))) /\
  (In h (history_rows (db_log db_one)) \/
   exists m, In m (select_due 5 (db_sched db_one)) /\ profile_ready (sm_profile m) = true /\
             hr_scheduled_message_id h = sm_id m /\ In (hr_group_id h) (sm_group_ids m)).
Proof.
  intros h.
  assert (Hin : In h (history_rows (db_log (run_pass gw_all_ok 5 db_one))))
    by (vm_compute; left; reflexivity).
  split; [exact Hin | exact (run_pass_history_rows_selected gw_all_ok 5 db_one h Hin)].
Defined.

End DispatchMoreFacts.
